(** * NOPE Python SDK: schema layer and client contract

    A shallow embedding of [nope/types.py] (the pydantic models of the
    request and response of [/v1/evaluate]) together with the validation
    rules pydantic applies to those declarations, and a model of the client
    facade and of the transport's error classification.

    Modelling conventions.
    - Raw input is a decoded JSON value ([json]): what [response.json()]
      hands to the models, and what a caller passes as keyword arguments.
      A JSON object is a Python [dict], modelled as a [gmap] from keys to
      values.
    - A validated value is a [pyobj]; a model instance is its class name and
      its fields in declaration order.
    - A Python [float] is modelled by a rational number; the non-finite
      floats are outside the model.
    - Validation accepts a value of the JSON type the annotation names (and
      an integer where a float is expected). The further conversions of
      pydantic's lax mode (a numeric string for a number, ["yes"] for a
      boolean, ...) are not modelled: such inputs are refused here, so
      every acceptance proved below holds of pydantic as well, and the
      refusals proved below are stated for inputs that no conversion
      rescues (a missing key, a string outside a [Literal], a number
      outside its bounds). *)

From Stdlib Require Import QArith.
From stdpp Require Import base option list strings gmap.

#[local] Set Warnings "-register-all".
#[local] Open Scope string_scope.
#[local] Open Scope list_scope.

(** ** Raw and validated values *)

Inductive json : Type :=
| JNull
| JBool (b : bool)
| JInt (z : Z)
| JFloat (q : Q)
| JStr (s : string)
| JArr (items : list json)
| JObj (members : gmap string json).

Inductive pyobj : Type :=
| PNone
| PBool (b : bool)
| PInt (z : Z)
| PFloat (q : Q)
| PStr (s : string)
| PList (items : list pyobj)
| PModel (cls : string) (fields : list (string * pyobj)).

(** Attribute access on a model instance: [obj.name]. *)
Fixpoint assoc {A : Type} (k : string) (kvs : list (string * A)) : option A :=
  match kvs with
  | [] => None
  | (k', v) :: rest => if String.eqb k k' then Some v else assoc k rest
  end.

Definition getattr (o : pyobj) (name : string) : option pyobj :=
  match o with
  | PModel _ fields => assoc name fields
  | _ => None
  end.

(** ** Validation errors

    One line of a pydantic [ValidationError]: where, what, and the input
    found there. *)

Inductive loc_item : Type :=
| LKey (name : string)
| LIdx (index : nat).

Inductive error_type : Type :=
| Missing
| StringType
| BoolType
| IntType
| FloatType
| ListType
| ModelType (cls : string)
| LiteralError (expected : list string)
| GreaterThanEqual (bound : Q)
| LessThanEqual (bound : Q).

Record error_details : Type := ErrorDetails {
  loc : list loc_item;
  etype : error_type;
  input : json
}.

Inductive validation (A : Type) : Type :=
| Valid (a : A)
| Invalid (errors : list error_details).
Arguments Valid {A} a.
Arguments Invalid {A} errors.

Definition is_valid {A : Type} (r : validation A) : bool :=
  match r with Valid _ => true | Invalid _ => false end.

Definition vmap {A B : Type} (f : A -> B) (r : validation A) : validation B :=
  match r with
  | Valid a => Valid (f a)
  | Invalid es => Invalid es
  end.

(** Errors found below a key or an index are reported under it. *)
Definition under (i : loc_item) (e : error_details) : error_details :=
  ErrorDetails (i :: loc e) (etype e) (input e).

Definition at_loc {A : Type} (i : loc_item) (r : validation A) : validation A :=
  match r with
  | Valid a => Valid a
  | Invalid es => Invalid (under i <$> es)
  end.

(** A model and a list do not stop at the first failure: every field and
    every item is validated, and all the errors are reported. *)
Definition vcons {A : Type} (r : validation A) (rs : validation (list A))
  : validation (list A) :=
  match r, rs with
  | Valid a, Valid l => Valid (a :: l)
  | Valid _, Invalid es => Invalid es
  | Invalid es, Valid _ => Invalid es
  | Invalid es, Invalid es' => Invalid (es ++ es')
  end.

(** ** The schema language: the annotations of [types.py] *)

Record field_info : Type := FieldInfo {
  fname : string;
  falias : option string;
  fdefault : option pyobj
}.

Inductive ftype : Type :=
| TStr
| TBool
| TInt
| TFloat (ge le : option Q)
| TLiteral (choices : list string)
| TOptional (t : ftype)
| TList (t : ftype)
| TModel (cls : string) (populate_by_name : bool)
         (fields : list (field_info * ftype))
| TUnion (members : list ftype).

(** A required field, a field with a default, an optional field that
    defaults to [None]. *)
Definition required (name : string) (t : ftype) : field_info * ftype :=
  (FieldInfo name None None, t).

Definition with_default (name : string) (t : ftype) (d : pyobj)
  : field_info * ftype :=
  (FieldInfo name None (Some d), t).

Definition optional (name : string) (t : ftype) : field_info * ftype :=
  (FieldInfo name None (Some PNone), TOptional t).

Definition aliased (name alias : string) (t : ftype) : field_info * ftype :=
  (FieldInfo name (Some alias) None, t).

(** ** Validation *)

(** The keys under which a field is looked up: its alias when it has one
    (and then its name too, under [populate_by_name]), else its name. *)
Definition lookup_keys (pbn : bool) (fi : field_info) : list string :=
  match falias fi with
  | Some a => if pbn then [a; fname fi] else [a]
  | None => [fname fi]
  end.

Fixpoint find_key (keys : list string) (m : gmap string json)
  : option (string * json) :=
  match keys with
  | [] => None
  | k :: rest =>
      match m !! k with
      | Some v => Some (k, v)
      | None => find_key rest m
      end
  end.

Definition report_key (fi : field_info) : string :=
  match falias fi with Some a => a | None => fname fi end.

Definition validate_field (pbn : bool) (m : gmap string json)
    (f : field_info * (json -> validation pyobj))
  : validation (string * pyobj) :=
  let '(fi, validator) := f in
  match find_key (lookup_keys pbn fi) m with
  | Some (k, v) => vmap (pair (fname fi)) (at_loc (LKey k) (validator v))
  | None =>
      match fdefault fi with
      | Some d => Valid (fname fi, d)
      | None => Invalid [ErrorDetails [LKey (report_key fi)] Missing (JObj m)]
      end
  end.

Fixpoint validate_fields (pbn : bool) (m : gmap string json)
    (fs : list (field_info * (json -> validation pyobj)))
  : validation (list (string * pyobj)) :=
  match fs with
  | [] => Valid []
  | f :: rest => vcons (validate_field pbn m f) (validate_fields pbn m rest)
  end.

Fixpoint validate_items (validator : json -> validation pyobj) (i : nat)
    (items : list json) : validation (list pyobj) :=
  match items with
  | [] => Valid []
  | x :: rest =>
      vcons (at_loc (LIdx i) (validator x)) (validate_items validator (S i) rest)
  end.

(** A union takes the member that validates; when none does, the errors of
    every member are reported, each under the member's tag. *)
Fixpoint validate_union (members : list (string * (json -> validation pyobj)))
    (j : json) : validation pyobj :=
  match members with
  | [] => Invalid []
  | (tag, validator) :: rest =>
      match validator j with
      | Valid v => Valid v
      | Invalid es =>
          match validate_union rest j with
          | Valid v => Valid v
          | Invalid es' => Invalid ((under (LKey tag) <$> es) ++ es')
          end
      end
  end.

Definition type_tag (t : ftype) : string :=
  match t with
  | TStr => "str"
  | TBool => "bool"
  | TInt => "int"
  | TFloat _ _ => "float"
  | TLiteral _ => "literal"
  | TOptional _ => "nullable"
  | TList _ => "list"
  | TModel cls _ _ => cls
  | TUnion _ => "union"
  end.

Definition fail {A : Type} (t : error_type) (j : json) : validation A :=
  Invalid [ErrorDetails [] t j].

Definition check_bounds (ge le : option Q) (j : json) (q : Q)
  : validation pyobj :=
  match le with
  | Some hi =>
      if Qle_bool q hi then
        match ge with
        | Some lo =>
            if Qle_bool lo q then Valid (PFloat q)
            else fail (GreaterThanEqual lo) j
        | None => Valid (PFloat q)
        end
      else fail (LessThanEqual hi) j
  | None =>
      match ge with
      | Some lo =>
          if Qle_bool lo q then Valid (PFloat q)
          else fail (GreaterThanEqual lo) j
      | None => Valid (PFloat q)
      end
  end.

Fixpoint validate (t : ftype) (j : json) {struct t} : validation pyobj :=
  match t with
  | TStr =>
      match j with JStr s => Valid (PStr s) | _ => fail StringType j end
  | TBool =>
      match j with JBool b => Valid (PBool b) | _ => fail BoolType j end
  | TInt =>
      match j with JInt z => Valid (PInt z) | _ => fail IntType j end
  | TFloat ge le =>
      match j with
      | JFloat q => check_bounds ge le j q
      | JInt z => check_bounds ge le j (inject_Z z)
      | _ => fail FloatType j
      end
  | TLiteral choices =>
      match j with
      | JStr s =>
          if decide (s ∈ choices) then Valid (PStr s)
          else fail (LiteralError choices) j
      | _ => fail (LiteralError choices) j
      end
  | TOptional t' =>
      match j with JNull => Valid PNone | _ => validate t' j end
  | TList t' =>
      match j with
      | JArr items => vmap PList (validate_items (validate t') 0 items)
      | _ => fail ListType j
      end
  | TModel cls pbn fields =>
      match j with
      | JObj m =>
          vmap (PModel cls)
            (validate_fields pbn m
               (map (fun f => (fst f, validate (snd f))) fields))
      | _ => fail (ModelType cls) j
      end
  | TUnion members =>
      validate_union (map (fun m => (type_tag m, validate m)) members) j
  end.

(** Calling a model class with keyword arguments validates them. *)
Definition construct (model : ftype) (kwargs : gmap string json)
  : validation pyobj :=
  validate model (JObj kwargs).

(** The value a [default_factory] yields. *)
Definition default_factory (model : ftype) : pyobj :=
  match construct model ∅ with
  | Valid v => v
  | Invalid _ => PNone
  end.

(** ** [types.py]: enumerations *)

Definition Severity : list string :=
  ["none"; "mild"; "moderate"; "high"; "critical"].
Definition Imminence : list string :=
  ["not_applicable"; "chronic"; "subacute"; "urgent"; "emergency"].
Definition RiskDomain : list string :=
  ["self"; "others"; "dependent_at_risk"; "victimisation"].
Definition SelfSubtype : list string :=
  ["suicidal_or_self_injury"; "self_neglect"; "other"].
Definition DependentSubtype : list string :=
  ["child"; "adult_at_risk"; "animal_or_other"].
Definition VictimisationSubtype : list string :=
  ["IPV_intimate_partner"; "family_non_intimate"; "trafficking_exploitation";
   "community_violence"; "institutional_abuse"; "other"].
Definition EvidenceGrade : list string :=
  ["strong"; "moderate"; "weak"; "consensus"; "none"].
Definition CrisisResourceType : list string :=
  ["emergency_number"; "crisis_line"; "text_line"; "chat_service";
   "support_service"].
Definition CrisisResourceKind : list string :=
  ["helpline"; "reporting_portal"; "directory"; "self_help_site"].
Definition CrisisResourcePriorityTier : list string :=
  ["primary_national_crisis"; "secondary_national_crisis";
   "specialist_issue_crisis"; "population_specific_crisis";
   "support_info_and_advocacy"; "support_directory_or_tool";
   "emergency_services"].
Definition ResponseIssueSeverity : list string :=
  ["critical"; "serious"; "concerning"].
Definition ResponseIssue : list string :=
  ["method_or_means_detail"; "suicide_self_harm_encouragement";
   "crisis_signal_ignored"; "crisis_resources_missing"; "victim_blaming";
   "harmful_advice";
   "dismissive_of_distress"; "disbelief_of_disclosure";
   "inappropriate_probing"; "reinforces_harmful_beliefs";
   "scripted_robotic_tone"; "overwhelming_or_unfocused"].
Definition ResponseRecommendation : list string :=
  ["use"; "augment"; "replace"].

(** ** [types.py]: request types *)

Definition Message : ftype :=
  TModel "Message" false
    [ required "role" (TLiteral ["user"; "assistant"]);
      required "content" TStr;
      optional "timestamp" TStr ].

Definition EvaluateConfig : ftype :=
  TModel "EvaluateConfig" false
    [ optional "user_country" TStr;
      optional "locale" TStr;
      optional "user_age_band" (TLiteral ["adult"; "minor"; "unknown"]);
      optional "policy_id" TStr;
      optional "dry_run" TBool;
      optional "return_assistant_reply" TBool;
      optional "assistant_safety_mode" (TLiteral ["template"; "generate"]);
      optional "use_multiple_judges" TBool;
      optional "models" (TList TStr);
      optional "conversation_id" TStr;
      optional "end_user_id" TStr ].

Definition EvaluateRequest : ftype :=
  TModel "EvaluateRequest" false
    [ optional "messages" (TList Message);
      optional "text" TStr;
      with_default "config" EvaluateConfig (default_factory EvaluateConfig);
      optional "user_context" TStr;
      optional "proposed_response" TStr ].

(** ** [types.py]: response types *)

Definition CrisisResource : ftype :=
  TModel "CrisisResource" false
    [ required "type" (TLiteral CrisisResourceType);
      required "name" TStr;
      optional "name_local" TStr;
      optional "phone" TStr;
      optional "text_instructions" TStr;
      optional "chat_url" TStr;
      optional "whatsapp_url" TStr;
      optional "website_url" TStr;
      optional "availability" TStr;
      optional "is_24_7" TBool;
      optional "languages" (TList TStr);
      optional "description" TStr;
      optional "resource_kind" (TLiteral CrisisResourceKind);
      optional "service_scope" (TList TStr);
      optional "population_served" (TList TStr);
      optional "priority_tier" (TLiteral CrisisResourcePriorityTier);
      optional "source" (TLiteral ["database"; "web_search"]) ].

Definition PresentationModifiers : ftype :=
  TModel "PresentationModifiers" false
    [ optional "psychotic_features" TBool;
      optional "substance_involved" TBool;
      optional "cognitive_impairment" TBool;
      optional "personality_features" TBool;
      optional "acute_decompensation" TBool;
      optional "self_neglect_severe" TBool ].

Definition SafeguardingFlags : ftype :=
  TModel "SafeguardingFlags" false
    [ optional "child_at_risk" TBool;
      optional "adult_at_risk" TBool;
      optional "duty_to_warn_others" TBool;
      optional "mandatory_reporting_possible" TBool ].

Definition ProtectiveFactorsInfo : ftype :=
  TModel "ProtectiveFactorsInfo" false
    [ optional "protective_factors" (TList TStr);
      optional "protective_factor_strength"
        (TLiteral ["weak"; "moderate"; "strong"]) ].

Definition ThirdPartyThreat : ftype :=
  TModel "ThirdPartyThreat" false
    [ required "present" TBool;
      required "identifiable_victim" TBool;
      required "confidence" (TFloat None None);
      required "rationale" TStr;
      optional "evidence_grade" (TLiteral EvidenceGrade) ].

Definition IntimatePartnerViolence : ftype :=
  TModel "IntimatePartnerViolence" false
    [ required "risk_level"
        (TLiteral ["standard"; "elevated"; "severe"; "extreme"]);
      required "confidence" (TFloat None None);
      optional "strangulation_history" TBool;
      optional "escalation_pattern" TBool;
      optional "evidence_grade" (TLiteral EvidenceGrade) ].

Definition ChildSafeguarding : ftype :=
  TModel "ChildSafeguarding" false
    [ required "urgency"
        (TLiteral ["routine"; "prompt"; "urgent"; "emergency"]);
      required "confidence" (TFloat None None);
      optional "basic_needs_unmet" TBool;
      optional "immediate_danger" TBool;
      optional "evidence_grade" (TLiteral EvidenceGrade) ].

Definition VulnerableAdultSafeguarding : ftype :=
  TModel "VulnerableAdultSafeguarding" false
    [ required "urgency"
        (TLiteral ["routine"; "prompt"; "urgent"; "emergency"]);
      required "confidence" (TFloat None None);
      optional "evidence_grade" (TLiteral EvidenceGrade) ].

Definition AnimalCrueltyIndicator : ftype :=
  TModel "AnimalCrueltyIndicator" false
    [ required "present" TBool;
      required "confidence" (TFloat None None);
      optional "evidence_grade" (TLiteral EvidenceGrade) ].

Definition LegalFlags : ftype :=
  TModel "LegalFlags" false
    [ optional "third_party_threat" ThirdPartyThreat;
      optional "intimate_partner_violence" IntimatePartnerViolence;
      optional "child_safeguarding" ChildSafeguarding;
      optional "vulnerable_adult_safeguarding" VulnerableAdultSafeguarding;
      optional "animal_cruelty_indicator" AnimalCrueltyIndicator ].

Definition GlobalAssessment : ftype :=
  TModel "GlobalAssessment" false
    [ required "overall_severity" (TLiteral Severity);
      required "overall_imminence" (TLiteral Imminence);
      required "primary_concerns" (TList TStr);
      optional "language" TStr;
      optional "locale" TStr ].

(** The fields a subclass inherits come first, its own fields after. *)
Definition BaseDomainAssessment_fields : list (field_info * ftype) :=
  [ required "severity" (TLiteral Severity);
    required "imminence" (TLiteral Imminence);
    required "confidence" (TFloat (Some 0%Q) (Some 1%Q));
    required "risk_features" (TList TStr);
    optional "risk_types" (TList TStr);
    optional "reasoning" TStr ].

Definition BaseDomainAssessment : ftype :=
  TModel "BaseDomainAssessment" false BaseDomainAssessment_fields.

Definition SelfDomainAssessment_fields : list (field_info * ftype) :=
  (BaseDomainAssessment_fields ++
   [ required "domain" (TLiteral ["self"]);
     required "self_subtype" (TLiteral SelfSubtype) ]).

Definition SelfDomainAssessment : ftype :=
  TModel "SelfDomainAssessment" false SelfDomainAssessment_fields.

Definition OthersDomainAssessment_fields : list (field_info * ftype) :=
  (BaseDomainAssessment_fields ++
   [ required "domain" (TLiteral ["others"]) ]).

Definition OthersDomainAssessment : ftype :=
  TModel "OthersDomainAssessment" false OthersDomainAssessment_fields.

Definition DependentAtRiskAssessment_fields : list (field_info * ftype) :=
  (BaseDomainAssessment_fields ++
   [ required "domain" (TLiteral ["dependent_at_risk"]);
     required "dependent_subtype" (TLiteral DependentSubtype) ]).

Definition DependentAtRiskAssessment : ftype :=
  TModel "DependentAtRiskAssessment" false DependentAtRiskAssessment_fields.

Definition VictimisationAssessment_fields : list (field_info * ftype) :=
  (BaseDomainAssessment_fields ++
   [ required "domain" (TLiteral ["victimisation"]);
     optional "victimisation_subtype" (TLiteral VictimisationSubtype) ]).

Definition VictimisationAssessment : ftype :=
  TModel "VictimisationAssessment" false VictimisationAssessment_fields.

Definition DomainAssessment : ftype :=
  TUnion [ SelfDomainAssessment;
           OthersDomainAssessment;
           DependentAtRiskAssessment;
           VictimisationAssessment ].

Definition RecommendedReply : ftype :=
  TModel "RecommendedReply" false
    [ required "content" TStr;
      required "source"
        (TLiteral ["template"; "llm_generated"; "llm_validated_candidate"]);
      optional "notes" TStr ].

Definition ProposedResponseEvaluation : ftype :=
  TModel "ProposedResponseEvaluation" false
    [ required "appropriate" TBool;
      required "issues" (TList (TLiteral ResponseIssue));
      required "recommendation" (TLiteral ResponseRecommendation);
      optional "reasoning" TStr ].

Definition CopingRecommendation : ftype :=
  TModel "CopingRecommendation" false
    [ required "category"
        (TLiteral ["self_soothing"; "social_support"; "professional_support";
                   "safety_planning"; "means_safety"]);
      required "evidence_grade" (TLiteral EvidenceGrade) ].

Definition ResponseMetadata : ftype :=
  TModel "ResponseMetadata" false
    [ optional "access_level"
        (TLiteral ["unauthenticated"; "authenticated"; "admin"]);
      optional "is_admin" TBool;
      optional "messages_truncated" TBool;
      optional "messages_original_count" TInt;
      optional "messages_kept_count" TInt;
      optional "features_available" (TList TStr);
      optional "input_format" (TLiteral ["structured"; "text_blob"]);
      with_default "api_version" (TLiteral ["v1"]) (PStr "v1") ].

Definition EvaluateResponse_fields : list (field_info * ftype) :=
  [ required "domains" (TList DomainAssessment);
    aliased "global_" "global" GlobalAssessment;
    optional "legal_flags" LegalFlags;
    optional "presentation_modifiers" PresentationModifiers;
    optional "safeguarding_flags" SafeguardingFlags;
    optional "protective_factors_info" ProtectiveFactorsInfo;
    required "confidence" (TFloat (Some 0%Q) (Some 1%Q));
    optional "agreement" (TFloat None None);
    required "crisis_resources" (TList CrisisResource);
    optional "widget_url" TStr;
    optional "recommended_reply" RecommendedReply;
    optional "proposed_response_evaluation" ProposedResponseEvaluation;
    optional "coping_recommendations" (TList CopingRecommendation);
    optional "metadata" ResponseMetadata ].

Definition EvaluateResponse : ftype :=
  TModel "EvaluateResponse" true EvaluateResponse_fields.

(** ** Serialisation: [model_dump] *)

Definition is_none (v : pyobj) : bool :=
  match v with PNone => true | _ => false end.

(** The dict of a model's fields; under [exclude_none] a field holding
    [None] is left out. *)
Fixpoint dump_fields (exclude_none : bool) (dump : pyobj -> json)
    (fs : list (string * pyobj)) : gmap string json :=
  match fs with
  | [] => ∅
  | kv :: rest =>
      if exclude_none && is_none kv.2 then dump_fields exclude_none dump rest
      else <[kv.1 := dump kv.2]> (dump_fields exclude_none dump rest)
  end.

Fixpoint model_dump (exclude_none : bool) (v : pyobj) : json :=
  match v with
  | PNone => JNull
  | PBool b => JBool b
  | PInt z => JInt z
  | PFloat q => JFloat q
  | PStr s => JStr s
  | PList items => JArr (map (model_dump exclude_none) items)
  | PModel _ fields =>
      JObj (dump_fields exclude_none (model_dump exclude_none) fields)
  end.

(** ** The client

    [nope/client.py] and [nope/errors.py] are imported by [nope/__init__.py]
    but are not among the sources; their behaviour is taken from the
    specification and from [tests/test_client.py]. *)

Module Client.

(** Modelled from the spec: the two ways the input check of [evaluate]
    fails; [tests/test_client.py] expects a [ValueError] whose message
    starts ["Either 'messages' or 'text' must be provided"] for the first
    and ["Only one of"] for the second. *)
Inductive input_fault : Type :=
| NeitherProvided
| BothProvided.

(** Modelled from the spec: the error taxonomy of [nope/errors.py], which is
    missing. A local input error, a schema error on the response body, and
    the errors derived from the HTTP exchange; the HTTP-derived ones carry
    the status code, the rate-limit error carries [retry_after] as well.
    [NopeBaseError] is an instance of the base class [NopeError] that
    [nope/__init__.py] exports beside its five subclasses. *)
Inductive NopeError : Type :=
| ArgumentError (fault : input_fault)
| SchemaError (errors : list error_details)
| NopeAuthError (status_code : Z) (message : string)
| NopeValidationError (status_code : Z) (message : string)
| NopeRateLimitError (status_code : Z) (message : string)
                     (retry_after : option Z)
| NopeServerError (status_code : Z) (message : string)
| NopeConnectionError (cause : string)
| NopeBaseError (status_code : Z) (message : string).

(** Modelled from the spec: the [status_code] attribute of an error of
    [nope/errors.py]; the errors raised without an HTTP response have
    none. *)
Definition status_of (e : NopeError) : option Z :=
  match e with
  | NopeAuthError s _ | NopeValidationError s _ | NopeRateLimitError s _ _
  | NopeServerError s _ | NopeBaseError s _ => Some s
  | ArgumentError _ | SchemaError _ | NopeConnectionError _ => None
  end.

(** Modelled from the spec: a request as the transport of [nope/client.py]
    sends it: target, bearer key, JSON body and timeout. *)
Record http_request : Type := HttpRequest {
  url : string;
  authorization : option string;
  payload : json;
  request_timeout : Q
}.

(** Modelled from the spec: a response as the transport of
    [nope/client.py] receives it. *)
Record http_response : Type := HttpResponse {
  status_code : Z;
  headers : gmap string string;
  body : json
}.

(** Modelled from the spec: the outcome of an exchange for the transport
    of [nope/client.py], a response or a failure of the connection
    (timeout, DNS, reset). *)
Inductive net_reply : Type :=
| Reply (r : http_response)
| Failure (cause : string).

(** Modelled from the spec: the client object of [nope/client.py], which is
    missing; [tests/test_client.py] reads these three attributes. *)
Record client : Type := NopeClient_ {
  api_key : option string;
  base_url : string;
  timeout : Q
}.

(** Modelled from the spec: the character the constructor of
    [nope/client.py] strips from the end of the base URL. *)
Definition slash : Ascii.ascii := Ascii.ascii_of_nat 47.

(** Modelled from the spec: the normalisation of the base URL in the
    constructor of [nope/client.py]. The specification wants the trailing
    slash stripped so that joining the endpoint never gives a double
    slash; every trailing slash is therefore removed, as Python's
    [rstrip] does. *)
Fixpoint rstrip_slash (s : string) : string :=
  match s with
  | EmptyString => EmptyString
  | String c rest =>
      match rstrip_slash rest with
      | EmptyString =>
          if Ascii.eqb c slash then EmptyString else String c EmptyString
      | kept => String c kept
      end
  end.

(** Modelled from the spec: the default base URL of [nope/client.py]. *)
Definition DEFAULT_BASE_URL : string := "https://api.nope.net".

(** Modelled from the spec: the default timeout of [nope/client.py], in
    seconds. *)
Definition DEFAULT_TIMEOUT : Q := 30.

(** Modelled from the spec: the constructor of [nope/client.py]:
    [api_key] optional, [base_url] defaulting to [DEFAULT_BASE_URL] and
    stripped of its trailing slash, [timeout] defaulting to
    [DEFAULT_TIMEOUT]. An argument left out is [None]. *)
Definition NopeClient (api_key : option string) (base_url : option string)
    (timeout : option Q) : client :=
  NopeClient_ api_key
    (rstrip_slash (default DEFAULT_BASE_URL base_url))
    (default DEFAULT_TIMEOUT timeout).

(** Modelled from the spec: the target of [evaluate] in [nope/client.py],
    [{base_url}/v1/evaluate]. *)
Definition evaluate_url (c : client) : string :=
  base_url c +:+ "/v1/evaluate".

(** Modelled from the spec: the value of a decimal digit, for the integer
    seconds of a [Retry-After] header read by [nope/client.py]. *)
Definition digit_of (c : Ascii.ascii) : option Z :=
  let n := Ascii.nat_of_ascii c in
  if (48 <=? n)%nat && (n <=? 57)%nat then Some (Z.of_nat (n - 48)) else None.

(** Modelled from the spec: a string of decimal digits read as an integer,
    for the [Retry-After] header read by [nope/client.py]. *)
Fixpoint parse_digits (acc : Z) (s : string) : option Z :=
  match s with
  | EmptyString => Some acc
  | String c rest =>
      match digit_of c with
      | Some d => parse_digits (10 * acc + d) rest
      | None => None
      end
  end.

(** Modelled from the spec: the integer seconds of a [Retry-After] header
    read by [nope/client.py]; [None] when the value is not a decimal
    integer. *)
Definition parse_seconds (s : string) : option Z :=
  match s with
  | EmptyString => None
  | _ => parse_digits 0 s
  end.

(** Modelled from the spec: the effects of [nope/client.py], as a small
    state-and-error monad. The state is the trace of the requests handed to
    the transport so far; an error ends the computation. *)
Definition io (A : Type) : Type :=
  list http_request -> (NopeError + A) * list http_request.

(** Modelled from the spec: a result returned by [nope/client.py]. *)
Definition ret {A : Type} (a : A) : io A := fun tr => (inr a, tr).

(** Modelled from the spec: an error raised by [nope/client.py]. *)
Definition raise {A : Type} (e : NopeError) : io A := fun tr => (inl e, tr).

(** Modelled from the spec: sequencing in [nope/client.py]; what follows
    an error does not run. *)
Definition bind {A B : Type} (m : io A) (k : A -> io B) : io B :=
  fun tr =>
    match m tr with
    | (inl e, tr') => (inl e, tr')
    | (inr a, tr') => k a tr'
    end.

#[export] Instance io_ret : MRet io := @ret.
#[export] Instance io_bind : MBind io := fun A B k m => bind m k.

Section Evaluate.

(** The remote service: its reply to a request, given the requests it has
    seen before. *)
Variable network : list http_request -> http_request -> net_reply.

(** What the specification leaves open: the message read off an error
    response, the outcome of a status it does not list, and the value
    given to [retry_after] by a header that is not an integer. *)
Variable error_message : http_response -> string.
Variable unlisted_status : http_response -> NopeError + json.
Variable malformed_retry_after : string -> option Z.

(** Modelled from the spec: the one network call of [nope/client.py]; the
    request joins the trace and the network answers. *)
Definition send (req : http_request) : io net_reply :=
  fun tr => (inr (network tr req), tr ++ [req]).

(** Modelled from the spec: the [retry_after] of a rate-limit error in
    [nope/client.py]: the integer seconds of the [Retry-After] header,
    [None] without the header. *)
Definition retry_after (resp : http_response) : option Z :=
  match headers resp !! "Retry-After" with
  | None => None
  | Some v =>
      match parse_seconds v with
      | Some n => Some n
      | None => malformed_retry_after v
      end
  end.

(** Modelled from the spec: the transport's classification of a response
    in [nope/client.py]: a 2xx status yields the body; 401 and 403, 400
    and 422, 429, and 5xx yield their errors. *)
Definition handle_response (resp : http_response) : NopeError + json :=
  let s := status_code resp in
  let msg := error_message resp in
  if (200 <=? s)%Z && (s <? 300)%Z then inr (body resp)
  else if (s =? 401)%Z || (s =? 403)%Z then inl (NopeAuthError s msg)
  else if (s =? 400)%Z || (s =? 422)%Z then inl (NopeValidationError s msg)
  else if (s =? 429)%Z then inl (NopeRateLimitError s msg (retry_after resp))
  else if (500 <=? s)%Z && (s <? 600)%Z then inl (NopeServerError s msg)
  else unlisted_status resp.

(** Modelled from the spec: the transport's classification of an exchange
    in [nope/client.py]; a failed connection is a [NopeConnectionError]
    wrapping its cause. *)
Definition handle_reply (r : net_reply) : NopeError + json :=
  match r with
  | Reply resp => handle_response resp
  | Failure cause => inl (NopeConnectionError cause)
  end.

(** Modelled from the spec: the keyword arguments of [evaluate] in
    [nope/client.py]; an argument left out is [None]. *)
Record evaluate_args : Type := EvaluateArgs {
  arg_messages : option json;
  arg_text : option json;
  arg_config : option json;
  arg_user_context : option json;
  arg_proposed_response : option json
}.

(** Modelled from the spec: the precondition check of [evaluate] in
    [nope/client.py]: exactly one of [messages] and [text]. *)
Definition check_input (a : evaluate_args) : io unit :=
  match arg_messages a, arg_text a with
  | None, None => raise (ArgumentError NeitherProvided)
  | Some _, Some _ => raise (ArgumentError BothProvided)
  | _, _ => ret tt
  end.

(** Modelled from the spec: [evaluate] in [nope/client.py] passes on only
    what the caller set. *)
Definition set_arg (k : string) (v : option json) (m : gmap string json)
  : gmap string json :=
  match v with
  | Some x => <[k := x]> m
  | None => m
  end.

(** Modelled from the spec: the keyword arguments from which [evaluate] in
    [nope/client.py] builds its [EvaluateRequest]. *)
Definition request_kwargs (a : evaluate_args) : gmap string json :=
  set_arg "messages" (arg_messages a)
    (set_arg "text" (arg_text a)
       (set_arg "config" (arg_config a)
          (set_arg "user_context" (arg_user_context a)
             (set_arg "proposed_response" (arg_proposed_response a) ∅)))).

(** Modelled from the spec: in [nope/client.py] a value that does not
    validate surfaces as a schema error. *)
Definition of_validation {A : Type} (r : validation A) : io A :=
  match r with
  | Valid a => ret a
  | Invalid es => raise (SchemaError es)
  end.

(** Modelled from the spec: in [nope/client.py] a classified failure is
    raised. *)
Definition of_sum {A : Type} (r : NopeError + A) : io A :=
  match r with
  | inl e => raise e
  | inr a => ret a
  end.

(** Modelled from the spec: the facade of [nope/client.py], which is
    missing. The input check comes first; then the request is built, sent
    to [{base_url}/v1/evaluate], the reply classified, and the body of a
    successful reply parsed as an [EvaluateResponse]. The payload holds
    only what the caller set. *)
Definition evaluate (c : client) (a : evaluate_args) : io pyobj :=
  check_input a;;
  request ← of_validation (construct EvaluateRequest (request_kwargs a));
  reply ← send (HttpRequest (evaluate_url c) (api_key c)
                  (model_dump true request) (timeout c));
  raw ← of_sum (handle_reply reply);
  of_validation (validate EvaluateResponse raw).

(** Modelled from the spec: the two clients of [nope/client.py],
    [NopeClient] (blocking) and [AsyncNopeClient] (non-blocking). *)
Inductive variant : Type := Blocking | NonBlocking.

(** Modelled from the spec: [evaluate] on either client of
    [nope/client.py]; the two share validation, payload building and error
    mapping, and differ only in how the caller waits. *)
Definition evaluate_on (v : variant) (c : client) (a : evaluate_args)
  : io pyobj :=
  match v with
  | Blocking => evaluate c a
  | NonBlocking => evaluate c a
  end.

End Evaluate.

End Client.

(** ** Predicates used in the statements *)

(** [conforms t v]: the value [v] has the shape the annotation [t]
    describes. *)
Definition within (ge le : option Q) (q : Q) : Prop :=
  (forall lo, ge = Some lo -> (lo <= q)%Q) /\
  (forall hi, le = Some hi -> (q <= hi)%Q).

Fixpoint conforms (t : ftype) (v : pyobj) {struct t} : Prop :=
  match t with
  | TStr => exists s, v = PStr s
  | TBool => exists b, v = PBool b
  | TInt => exists z, v = PInt z
  | TFloat ge le => exists q, v = PFloat q /\ within ge le q
  | TLiteral choices => exists s, v = PStr s /\ s ∈ choices
  | TOptional t' => v = PNone \/ conforms t' v
  | TList t' => exists items, v = PList items /\ Forall (conforms t') items
  | TModel cls _ fields =>
      exists kvs, v = PModel cls kvs /\
        (fix all_fields (fs : list (field_info * ftype))
             (kvs : list (string * pyobj)) : Prop :=
           match fs, kvs with
           | [], [] => True
           | f :: fs', kv :: kvs' =>
               kv.1 = fname f.1 /\ conforms f.2 kv.2 /\ all_fields fs' kvs'
           | _, _ => False
           end) fields kvs
  | TUnion members =>
      (fix some_member (ms : list ftype) : Prop :=
         match ms with
         | [] => False
         | m :: ms' => conforms m v \/ some_member ms'
         end) members
  end.

(** Every default of the schema has the shape of its field. *)
Fixpoint defaults_conform (t : ftype) : Prop :=
  match t with
  | TOptional t' | TList t' => defaults_conform t'
  | TModel _ _ fields =>
      (fix all_fields (fs : list (field_info * ftype)) : Prop :=
         match fs with
         | [] => True
         | f :: fs' =>
             (forall d, fdefault f.1 = Some d -> conforms f.2 d) /\
             defaults_conform f.2 /\ all_fields fs'
         end) fields
  | TUnion members =>
      (fix all_members (ms : list ftype) : Prop :=
         match ms with
         | [] => True
         | m :: ms' => defaults_conform m /\ all_members ms'
         end) members
  | _ => True
  end.

(** The schemas that serialise without loss: no union, no alias, field
    names all different, and a field that may hold [None] defaults to
    [None]. *)
Definition nullable (t : ftype) : bool :=
  match t with TOptional _ => true | _ => false end.

Definition none_default (f : field_info * ftype) : bool :=
  if nullable f.2
  then match fdefault f.1 with Some PNone => true | _ => false end
  else true.

Definition no_alias (f : field_info * ftype) : bool :=
  match falias f.1 with None => true | Some _ => false end.

Fixpoint lossless (t : ftype) : bool :=
  match t with
  | TOptional t' | TList t' => lossless t'
  | TModel _ _ fields =>
      bool_decide (NoDup (map (fun f => fname f.1) fields)) &&
      forallb no_alias fields &&
      forallb none_default fields &&
      (fix all_fields (fs : list (field_info * ftype)) : bool :=
         match fs with
         | [] => true
         | f :: fs' => lossless f.2 && all_fields fs'
         end) fields
  | TUnion _ => false
  | _ => true
  end.

(** The keys a model reads from its input. *)
Definition recognised_keys (pbn : bool) (fields : list (field_info * ftype))
  : list string :=
  concat (map (fun f => lookup_keys pbn f.1) fields).

(** The last character of a string. *)
Fixpoint last_char (s : string) : option Ascii.ascii :=
  match s with
  | EmptyString => None
  | String c EmptyString => Some c
  | String _ rest => last_char rest
  end.

(** The discriminants of the four variants, as raw values. *)
Definition known_domain (d : json) : Prop :=
  exists s, d = JStr s /\ s ∈ RiskDomain.


Definition one_of (choices : list string) (v : option pyobj) : Prop :=
  exists s, v = Some (PStr s) /\ s ∈ choices.


(** A valid request: one the model class constructs. *)
Definition valid_request (r : pyobj) : Prop :=
  exists kwargs, construct EvaluateRequest kwargs = Valid r.

(** A raw JSON object from its members. *)
Definition obj (members : list (string * json)) : json :=
  JObj (list_to_map members).

(** Exactly one of [messages] and [text] is given. *)
Definition exactly_one (a : Client.evaluate_args) : bool :=
  xorb (bool_decide (is_Some (Client.arg_messages a)))
       (bool_decide (is_Some (Client.arg_text a))).

(** The fault reported when it is not exactly one: both, or neither. *)
Definition fault_of (a : Client.evaluate_args) : Client.input_fault :=
  match Client.arg_messages a with
  | Some _ => Client.BothProvided
  | None => Client.NeitherProvided
  end.

(** The request [evaluate] sends for a built [EvaluateRequest]. *)
Definition request_for (c : Client.client) (request : pyobj)
  : Client.http_request :=
  Client.HttpRequest (Client.evaluate_url c) (Client.api_key c)
    (model_dump true request) (Client.timeout c).

(** An outcome that is the error [e], carrying the status code [s]. *)
Definition raises {A : Type} (outcome : Client.NopeError + A)
    (e : Client.NopeError) (s : Z) : Prop :=
  outcome = inl e /\ Client.status_of e = Some s.

(** ** Sample inputs, after [tests/test_client.py] *)

Definition sample_messages : json :=
  JArr [obj [("role", JStr "user"); ("content", JStr "test")]].

Definition args_messages : Client.evaluate_args :=
  Client.EvaluateArgs (Some sample_messages) None None None None.

Definition args_both : Client.evaluate_args :=
  Client.EvaluateArgs (Some sample_messages) (Some (JStr "test"))
    None None None.

Definition args_neither : Client.evaluate_args :=
  Client.EvaluateArgs None None None None None.

Definition sample_request : pyobj :=
  PModel "EvaluateRequest"
    [ ("messages",
       PList [PModel "Message" [("role", PStr "user");
                                ("content", PStr "test");
                                ("timestamp", PNone)]]);
      ("text", PNone);
      ("config", default_factory EvaluateConfig);
      ("user_context", PNone);
      ("proposed_response", PNone) ].

Definition sample_client : Client.client :=
  Client.NopeClient (Some "test_key") None None.

Definition rate_limited : Client.http_response :=
  Client.HttpResponse 429 {[ "Retry-After" := "30" ]}
    (obj [("error", JStr "Rate limit exceeded")]).

Definition network_429 (_ : list Client.http_request)
    (_ : Client.http_request) : Client.net_reply :=
  Client.Reply rate_limited.

Definition message_of (resp : Client.http_response) : string :=
  match Client.body resp with
  | JObj m => match m !! "error" with Some (JStr s) => s | _ => "" end
  | _ => ""
  end.

Definition as_base_error (resp : Client.http_response)
  : Client.NopeError + json :=
  inl (Client.NopeBaseError (Client.status_code resp) (message_of resp)).

Definition no_seconds (_ : string) : option Z := None.

(** The variants of [DomainAssessment]: class, discriminant and fields. *)
Definition domain_variants
  : list (string * string * list (field_info * ftype)) :=
  [ ("SelfDomainAssessment", "self", SelfDomainAssessment_fields);
    ("OthersDomainAssessment", "others", OthersDomainAssessment_fields);
    ("DependentAtRiskAssessment", "dependent_at_risk",
     DependentAtRiskAssessment_fields);
    ("VictimisationAssessment", "victimisation",
     VictimisationAssessment_fields) ].

(** A response whose only domain assessment carries an unknown
    discriminant. *)
Definition stranger_domain : gmap string json :=
  list_to_map
    [ ("severity", JStr "moderate"); ("imminence", JStr "chronic");
      ("confidence", JFloat (1 # 2)); ("risk_features", JArr []);
      ("domain", JStr "stranger") ].

Definition sample_global : json :=
  obj [ ("overall_severity", JStr "moderate");
        ("overall_imminence", JStr "chronic");
        ("primary_concerns", JArr []) ].

Definition stranger_response : gmap string json :=
  list_to_map
    [ ("domains", JArr [JObj stranger_domain]);
      ("global", sample_global);
      ("confidence", JFloat (1 # 2));
      ("crisis_resources", JArr []) ].

(** A well-formed response, and the same with keys the schema does not
    know. *)
Definition plain_response : gmap string json :=
  list_to_map
    [ ("domains", JArr []);
      ("global", sample_global);
      ("confidence", JFloat (1 # 2));
      ("crisis_resources", JArr []) ].

Definition unknown_extras : gmap string json :=
  list_to_map
    [ ("request_id", JStr "req_test123");
      ("timestamp", JStr "2024-01-15T12:00:00Z");
      ("show_resources", JBool true) ].

Definition plain_parsed : pyobj :=
  PModel "EvaluateResponse"
    [ ("domains", PList []);
      ("global_",
       PModel "GlobalAssessment"
         [ ("overall_severity", PStr "moderate");
           ("overall_imminence", PStr "chronic");
           ("primary_concerns", PList []);
           ("language", PNone); ("locale", PNone) ]);
      ("legal_flags", PNone);
      ("presentation_modifiers", PNone);
      ("safeguarding_flags", PNone);
      ("protective_factors_info", PNone);
      ("confidence", PFloat (1 # 2));
      ("agreement", PNone);
      ("crisis_resources", PList []);
      ("widget_url", PNone);
      ("recommended_reply", PNone);
      ("proposed_response_evaluation", PNone);
      ("coping_recommendations", PNone);
      ("metadata", PNone) ].

(** The optional aggregate fields of [EvaluateResponse]. *)
Definition optional_aggregates : list string :=
  [ "legal_flags"; "presentation_modifiers"; "safeguarding_flags";
    "protective_factors_info"; "agreement"; "widget_url";
    "recommended_reply"; "proposed_response_evaluation";
    "coping_recommendations"; "metadata" ].

(** A [self] assessment without its subtype, and a [victimisation]
    assessment without its subtype. *)
Definition self_without_subtype : gmap string json :=
  list_to_map
    [ ("severity", JStr "moderate"); ("imminence", JStr "chronic");
      ("confidence", JFloat (1 # 2)); ("risk_features", JArr []);
      ("domain", JStr "self") ].

Definition victimisation_without_subtype : gmap string json :=
  list_to_map
    [ ("severity", JStr "moderate"); ("imminence", JStr "chronic");
      ("confidence", JFloat (1 # 2)); ("risk_features", JArr []);
      ("domain", JStr "victimisation") ].

Definition sample_base : list (string * pyobj) :=
  [ ("severity", PStr "moderate"); ("imminence", PStr "chronic");
    ("confidence", PFloat (1 # 2)); ("risk_features", PList []);
    ("risk_types", PNone); ("reasoning", PNone) ].

(** Keyword arguments giving both [messages] and [text]. *)
Definition kwargs_both : gmap string json :=
  {[ "messages" := sample_messages; "text" := JStr "test" ]}.


Definition unlisted (choices : list string) (j : json) : Prop :=
  forall s, j = JStr s -> s ∉ choices.





(** ** Further definitions used in the statements *)

(** The model classes of [types.py] that hold no union and no alias. *)
Definition plain_models : list ftype :=
  [ Message; EvaluateConfig; EvaluateRequest; CrisisResource;
    PresentationModifiers; SafeguardingFlags; ProtectiveFactorsInfo;
    ThirdPartyThreat; IntimatePartnerViolence; ChildSafeguarding;
    VulnerableAdultSafeguarding; AnimalCrueltyIndicator; LegalFlags;
    GlobalAssessment; BaseDomainAssessment; SelfDomainAssessment;
    OthersDomainAssessment; DependentAtRiskAssessment;
    VictimisationAssessment; RecommendedReply; ProposedResponseEvaluation;
    CopingRecommendation; ResponseMetadata ].

(** The fields a model class declares. *)
Definition fields_of (t : ftype) : list (field_info * ftype) :=
  match t with
  | TModel _ _ fields => fields
  | _ => []
  end.




(** The optional fields of [CrisisResource]. *)
Definition resource_optionals : list string :=
  [ "name_local"; "phone"; "text_instructions"; "chat_url"; "whatsapp_url";
    "website_url"; "availability"; "is_24_7"; "languages"; "description";
    "resource_kind"; "service_scope"; "population_served"; "priority_tier";
    "source" ].

(** ** Further sample inputs *)

Definition self_with_subtype : gmap string json :=
  <["self_subtype" := JStr "other"]> self_without_subtype.

Definition victimisation_parsed : pyobj :=
  PModel "VictimisationAssessment"
    (sample_base ++ [ ("domain", PStr "victimisation");
                      ("victimisation_subtype", PNone) ]).

Definition lifeline : gmap string json :=
  list_to_map [ ("type", JStr "crisis_line");
                ("name", JStr "988 Suicide & Crisis Lifeline") ].

Definition mistyped_resource : gmap string json :=
  list_to_map [ ("type", JStr "hotline"); ("name", JStr "Helpline") ].

Definition response_with_resources (resources : list json)
  : gmap string json :=
  <["crisis_resources" := JArr resources]> plain_response.

Definition evaluation_with_unknown_issue : gmap string json :=
  list_to_map [ ("appropriate", JBool false);
                ("issues", JArr [JStr "victim_blaming"; JStr "too_long"]);
                ("recommendation", JStr "replace") ].

Definition shouting_message : gmap string json :=
  list_to_map [ ("role", JStr "system"); ("content", JStr "test") ].



(** * Properties *)

(** ** Induction over schemas *)

Lemma ftype_nested_ind (P : ftype -> Prop) :
  P TStr -> P TBool -> P TInt ->
  (forall ge le, P (TFloat ge le)) ->
  (forall choices, P (TLiteral choices)) ->
  (forall t, P t -> P (TOptional t)) ->
  (forall t, P t -> P (TList t)) ->
  (forall cls pbn fields, Forall (fun f => P f.2) fields ->
                          P (TModel cls pbn fields)) ->
  (forall members, Forall P members -> P (TUnion members)) ->
  forall t, P t.
Proof.
  intros HS HB HI HF HL HO HLi HM HU.
  fix IH 1. intros [ | | | ge le | cs | t | t | cls pbn fields | members].
  - exact HS.
  - exact HB.
  - exact HI.
  - apply HF.
  - apply HL.
  - apply HO, IH.
  - apply HLi, IH.
  - apply HM. induction fields as [|f fields IHf]; constructor.
    + apply IH.
    + exact IHf.
  - apply HU. induction members as [|m members IHm]; constructor.
    + apply IH.
    + exact IHm.
Qed.

(** ** What a successful validation returns *)

Lemma vmap_valid {A B} (f : A -> B) r b :
  vmap f r = Valid b -> exists a, r = Valid a /\ b = f a.
Proof. destruct r; simpl; intros H; [|discriminate]. injection H as <-. eauto. Qed.

Lemma vcons_valid {A} (r : validation A) rs l :
  vcons r rs = Valid l -> exists a l', r = Valid a /\ rs = Valid l' /\ l = a :: l'.
Proof.
  destruct r, rs; simpl; intros H; try discriminate.
  injection H as <-. eauto.
Qed.

Lemma at_loc_valid {A} i (r : validation A) a :
  at_loc i r = Valid a -> r = Valid a.
Proof. destruct r; simpl; congruence. Qed.

Lemma check_bounds_valid ge le j q v :
  check_bounds ge le j q = Valid v -> v = PFloat q /\ within ge le q.
Proof.
  unfold check_bounds, within, fail.
  destruct le as [hi|], ge as [lo|];
    repeat match goal with
    | |- context [Qle_bool ?a ?b] => destruct (Qle_bool a b) eqn:?
    end; intros H; try discriminate; injection H as <-;
    (split; [reflexivity|]); split; intros ? [= <-];
    by apply Qle_bool_iff.
Qed.

Lemma check_bounds_within ge le j q :
  within ge le q -> check_bounds ge le j q = Valid (PFloat q).
Proof.
  intros [Hge Hle]. unfold check_bounds.
  destruct le as [hi|], ge as [lo|]; try reflexivity.
  - rewrite (proj2 (Qle_bool_iff q hi)) by auto.
    by rewrite (proj2 (Qle_bool_iff lo q)) by auto.
  - by rewrite (proj2 (Qle_bool_iff q hi)) by auto.
  - by rewrite (proj2 (Qle_bool_iff lo q)) by auto.
Qed.

Lemma validate_items_conforms (f : json -> validation pyobj) (P : pyobj -> Prop) :
  (forall j v, f j = Valid v -> P v) ->
  forall items i l, validate_items f i items = Valid l -> Forall P l.
Proof.
  intros Hf. induction items as [|x items IH]; simpl; intros i l H.
  - injection H as <-. constructor.
  - apply vcons_valid in H as (a & l' & Ha & Hl & ->).
    constructor; [|by eapply IH].
    apply at_loc_valid in Ha. eauto.
Qed.

Lemma validate_union_valid members j v :
  validate_union members j = Valid v ->
  exists tag f, (tag, f) ∈ members /\ f j = Valid v.
Proof.
  induction members as [|[tag f] members IH]; simpl; [discriminate|].
  destruct (f j) as [a|es] eqn:Hf.
  - intros [= <-]. exists tag, f. split; [left|done].
  - destruct (validate_union members j) as [a|es'] eqn:Hu; [|discriminate].
    intros [= <-]. destruct IH as (tag' & f' & Hin & Hv); [done|].
    exists tag', f'. split; [by right|done].
Qed.

Theorem validate_sound t :
  defaults_conform t -> forall j v, validate t j = Valid v -> conforms t v.
Proof.
  induction t as [ | | | ge le | cs | t IH | t IH | cls pbn fields IH | members IH]
    using ftype_nested_ind; intros Hd j v H.
  - destruct j; simpl in H; try discriminate. injection H as <-. simpl; eauto.
  - destruct j; simpl in H; try discriminate. injection H as <-. simpl; eauto.
  - destruct j; simpl in H; try discriminate. injection H as <-. simpl; eauto.
  - destruct j; simpl in H; try discriminate;
      apply check_bounds_valid in H as [-> Hw]; simpl; eauto.
  - destruct j; simpl in H; try discriminate.
    case_decide; [|discriminate]. injection H as <-. simpl; eauto.
  - destruct j; simpl in H; try (right; by eapply IH).
    injection H as <-. by left.
  - destruct j; simpl in H; try discriminate.
    apply vmap_valid in H as (l & Hl & ->). simpl. exists l. split; [done|].
    eapply validate_items_conforms; [|exact Hl]. intros; by eapply IH.
  - destruct j as [| | | | | |m]; simpl in H; try discriminate.
    apply vmap_valid in H as (kvs & Hk & ->). simpl. exists kvs. split; [done|].
    simpl in Hd. clear cls.
    revert kvs Hk Hd. induction IH as [|[fi ft] fields IHf _ IHfs]; intros kvs Hk Hd.
    + simpl in Hk. by injection Hk as <-.
    + simpl in Hk. apply vcons_valid in Hk as ([k x] & kvs' & Hf & Hrest & ->).
      destruct Hd as (Hdef & Hdt & Hds). simpl in *.
      assert (k = fname fi /\ conforms ft x) as [-> Hx].
      { destruct (find_key (lookup_keys pbn fi) m) as [[k' v']|].
        - apply vmap_valid in Hf as (x' & Hx' & [= -> ->]).
          apply at_loc_valid in Hx'. split; [done|]. by eapply IHf.
        - destruct (fdefault fi) as [d|]; [|discriminate].
          injection Hf as <- <-. split; [done|]. by apply Hdef. }
      split; [done|]. split; [done|]. by apply IHfs.
  - simpl in H. apply validate_union_valid in H as (tag & f & Hin & Hv).
    simpl. simpl in Hd. revert Hin Hd.
    induction IH as [|m members IHm _ IHms]; simpl; intros Hin Hd.
    + by apply elem_of_nil in Hin.
    + destruct Hd as [Hdm Hds]. apply elem_of_cons in Hin as [[= -> ->]|Hin].
      * left. by eapply IHm.
      * right. by apply IHms.
Qed.

(** ** Serialisation and validation are inverse on lossless schemas *)

Lemma model_dump_null ex v : model_dump ex v = JNull -> v = PNone.
Proof. by destruct v. Qed.

Lemma validate_optional_nonnull t j :
  j <> JNull -> validate (TOptional t) j = validate t j.
Proof. by destruct j. Qed.

Lemma dump_fields_lookup ex dump kvs k x :
  NoDup kvs.*1 -> (k, x) ∈ kvs ->
  dump_fields ex dump kvs !! k =
    if ex && is_none x then None else Some (dump x).
Proof.
  induction kvs as [|[k' x'] kvs IH]; simpl; intros Hnd Hin.
  - by apply elem_of_nil in Hin.
  - apply NoDup_cons in Hnd as [Hk' Hnd].
    apply elem_of_cons in Hin as [[= -> ->]|Hin].
    + destruct (ex && is_none x') eqn:He.
      * apply not_elem_of_dom. intros Hdom. apply Hk'.
        clear -Hdom. induction kvs as [|[k2 x2] kvs IH]; simpl in *.
        { by rewrite dom_empty_L in Hdom. }
        destruct (ex && is_none x2).
        -- right. by apply IH.
        -- rewrite dom_insert_L in Hdom. apply elem_of_union in Hdom as [Hd|Hd].
           ++ apply elem_of_singleton in Hd as ->. by left.
           ++ right. by apply IH.
      * by rewrite lookup_insert_eq.
    + assert (k <> k') as Hne.
      { intros ->. apply Hk'. apply list_elem_of_fmap. by exists (k', x). }
      destruct (ex && is_none x').
      * by apply IH.
      * rewrite lookup_insert_ne by done. by apply IH.
Qed.

Lemma conforms_none_nullable t :
  lossless t = true -> conforms t PNone -> nullable t = true.
Proof.
  destruct t; simpl; try done; intros _ H.
  - by destruct H.
  - by destruct H.
  - by destruct H.
  - by destruct H as (? & ? & _).
  - by destruct H as (? & ? & _).
  - by destruct H as (? & ? & _).
  - by destruct H as (? & ? & _).
Qed.

Lemma validate_items_roundtrip (f : json -> validation pyobj) (dump : pyobj -> json) (P : pyobj -> Prop) :
  (forall v, P v -> f (dump v) = Valid v) ->
  forall l i, Forall P l -> validate_items f i (map dump l) = Valid l.
Proof.
  intros Hf. induction l as [|x l IH]; intros i Hl; simpl; [done|].
  apply Forall_cons in Hl as [Hx Hl]. by rewrite Hf, IH.
Qed.

Theorem dump_roundtrip ex t :
  lossless t = true ->
  forall v, conforms t v -> validate t (model_dump ex v) = Valid v.
Proof.
  induction t as [ | | | ge le | cs | t IH | t IH | cls pbn fields IH | members IH]
    using ftype_nested_ind; intros Hl v Hv.
  - by destruct Hv as [s ->].
  - by destruct Hv as [s ->].
  - by destruct Hv as [s ->].
  - destruct Hv as (q & -> & Hq). simpl. by apply check_bounds_within.
  - destruct Hv as (s & -> & Hs). simpl. by rewrite decide_True.
  - destruct Hv as [->|Hv]; [done|].
    destruct (is_none v) eqn:Hn; [by destruct v|].
    rewrite validate_optional_nonnull.
    + by apply IH.
    + intros Hj. apply model_dump_null in Hj. by subst v.
  - destruct Hv as (items & -> & Hitems). simpl.
    erewrite validate_items_roundtrip; [done| |exact Hitems].
    intros; by apply IH.
  - destruct Hv as (kvs & -> & Hkvs). simpl in Hl.
    apply andb_prop in Hl as [Hl Hless].
    apply andb_prop in Hl as [Hl Hnd].
    apply andb_prop in Hl as [Hnames Hna].
    apply bool_decide_eq_true in Hnames.
    assert (kvs.*1 = map (fun f => fname f.1) fields) as Hfst.
    { clear -Hkvs. revert kvs Hkvs.
      induction fields as [|f fields IHf]; intros [|kv kvs] H; try done.
      destruct H as (Hk & _ & H). simpl. f_equal; [done|]. by apply IHf. }
    rewrite <- Hfst in Hnames.
    simpl.
    set (m := dump_fields ex (model_dump ex) kvs).
    assert (forall k x, (k, x) ∈ kvs ->
              m !! k = if ex && is_none x then None else Some (model_dump ex x))
      as Hm by (intros; by apply dump_fields_lookup).
    clearbody m. clear Hnames Hfst.
    enough (validate_fields pbn m (map (fun f => (f.1, validate f.2)) fields)
            = Valid kvs) as -> by done.
    revert kvs Hkvs Hm Hna Hnd Hless.
    induction IH as [|[fi ft] fields IHf _ IHfs];
      intros [|[k x] kvs] Hkvs Hm Hna Hnd Hless; try done.
    destruct Hkvs as (Hk & Hx & Hkvs). simpl in Hk, Hx. subst k.
    simpl in Hna, Hnd, Hless.
    apply andb_prop in Hna as [Hna1 Hna].
    apply andb_prop in Hnd as [Hnd1 Hnd].
    apply andb_prop in Hless as [Hless1 Hless].
    simpl. rewrite (IHfs kvs); try done;
      [|intros k' x' Hin; apply Hm; by right].
    unfold lookup_keys. unfold no_alias in Hna1. simpl in Hna1.
    destruct (falias fi); [done|]. simpl.
    rewrite (Hm (fname fi) x) by left.
    destruct (ex && is_none x) eqn:He.
    + apply andb_prop in He as [_ Hn]. destruct x; try done.
      unfold none_default in Hnd1. simpl in Hnd1.
      rewrite (conforms_none_nullable ft) in Hnd1 by done.
      by destruct (fdefault fi) as [[]|].
    + simpl in IHf. by rewrite IHf.
  - done.
Qed.

(** ** The request schema *)

Lemma default_config :
  default_factory EvaluateConfig =
  PModel "EvaluateConfig"
    [ ("user_country", PNone); ("locale", PNone); ("user_age_band", PNone);
      ("policy_id", PNone); ("dry_run", PNone);
      ("return_assistant_reply", PNone); ("assistant_safety_mode", PNone);
      ("use_multiple_judges", PNone); ("models", PNone);
      ("conversation_id", PNone); ("end_user_id", PNone) ].
Proof. reflexivity. Qed.

Lemma EvaluateRequest_defaults : defaults_conform EvaluateRequest.
Proof.
  simpl. repeat split; try (intros d [= <-]; by left); try discriminate.
  intros d [= <-]. rewrite default_config. simpl.
  eexists; split; [reflexivity|]. simpl. repeat split; by left.
Qed.

Lemma EvaluateRequest_lossless : lossless EvaluateRequest = true.
Proof. vm_compute. reflexivity. Qed.

(** C7. A valid [EvaluateRequest], serialised with [model_dump] (with or
    without [exclude_none]) and validated again, comes back unchanged: every
    field, and so every field the sender set, is the same. *)
Theorem request_roundtrip (r : pyobj) (exclude_none : bool) :
  valid_request r ->
  validate EvaluateRequest (model_dump exclude_none r) = Valid r.
Proof.
  intros [kwargs Hr]. apply dump_roundtrip.
  - exact EvaluateRequest_lossless.
  - eapply validate_sound; [exact EvaluateRequest_defaults | exact Hr].
Qed.

Lemma request_roundtrip_witness :
  let kwargs : gmap string json :=
    {[ "messages" := JArr [obj [("role", JStr "user");
                                ("content", JStr "I feel hopeless")]];
       "config" := obj [("user_country", JStr "US")] ]} in
  let r :=
    PModel "EvaluateRequest"
      [ ("messages",
         PList [PModel "Message" [("role", PStr "user");
                                  ("content", PStr "I feel hopeless");
                                  ("timestamp", PNone)]]);
        ("text", PNone);
        ("config",
         PModel "EvaluateConfig"
           [ ("user_country", PStr "US"); ("locale", PNone);
             ("user_age_band", PNone); ("policy_id", PNone);
             ("dry_run", PNone); ("return_assistant_reply", PNone);
             ("assistant_safety_mode", PNone); ("use_multiple_judges", PNone);
             ("models", PNone); ("conversation_id", PNone);
             ("end_user_id", PNone) ]);
        ("user_context", PNone);
        ("proposed_response", PNone) ] in
  construct EvaluateRequest kwargs = Valid r /\
  validate EvaluateRequest (model_dump true r) = Valid r.
Proof.
  intros kwargs r.
  assert (construct EvaluateRequest kwargs = Valid r) as H
    by (vm_compute; reflexivity).
  split; [exact H|].
  apply (request_roundtrip r true). exists kwargs. exact H.
Defined.

(** ** The client facade and the transport *)

Section ClientFacts.

Import Client.

Variable network : list http_request -> http_request -> net_reply.
Variable error_message : http_response -> string.
Variable unlisted_status : http_response -> NopeError + json.
Variable malformed_retry_after : string -> option Z.

#[local] Abbreviation run_evaluate :=
  (evaluate_on network error_message unlisted_status malformed_retry_after).
#[local] Abbreviation classify :=
  (handle_response error_message unlisted_status malformed_retry_after).

Lemma evaluate_on_eq v c a :
  run_evaluate v c a =
  evaluate network error_message unlisted_status malformed_retry_after c a.
Proof. by destruct v. Qed.

Lemma exactly_one_true a :
  exactly_one a = true ->
  (is_Some (arg_messages a) /\ arg_text a = None) \/
  (arg_messages a = None /\ is_Some (arg_text a)).
Proof.
  unfold exactly_one.
  destruct (arg_messages a) as [ms|], (arg_text a) as [tx|];
    intros H; try (exfalso; vm_compute in H; discriminate H); eauto.
Qed.

Lemma exactly_one_false a :
  exactly_one a = false ->
  (is_Some (arg_messages a) /\ is_Some (arg_text a)) \/
  (arg_messages a = None /\ arg_text a = None).
Proof.
  unfold exactly_one.
  destruct (arg_messages a) as [ms|], (arg_text a) as [tx|];
    intros H; try (exfalso; vm_compute in H; discriminate H); eauto.
Qed.

(** Past the input check, one request is sent and its reply decides. *)
Lemma evaluate_run v c a request tr :
  exactly_one a = true ->
  construct EvaluateRequest (request_kwargs a) = Valid request ->
  run_evaluate v c a tr =
  (match handle_reply error_message unlisted_status malformed_retry_after
           (network tr (request_for c request)) with
   | inl e => inl e
   | inr raw =>
       match validate EvaluateResponse raw with
       | Valid r => inr r
       | Invalid es => inl (SchemaError es)
       end
   end, (tr ++ [request_for c request])).
Proof.
  intros Hone Hreq. rewrite evaluate_on_eq.
  unfold evaluate, mbind, io_bind, bind. rewrite Hreq.
  fold (request_for c request).
  assert (check_input a tr = (inr tt, tr)) as ->.
  { unfold check_input.
    by destruct (exactly_one_true a Hone) as [[[ms ->] ->] | [-> [tx ->]]]. }
  cbv [of_validation ret send of_sum raise]. cbv beta iota.
  destruct (handle_reply _ _ _ _) as [e|raw]; [done|].
  by destruct (validate EvaluateResponse raw).
Qed.

(** C1. When [messages] and [text] are both given or both left out,
    [evaluate] fails, on either client variant, with the local input error
    (telling which of the two it was), and the trace of requests handed to
    the transport is unchanged: nothing was sent, whatever the network
    would have answered. *)
Theorem evaluate_input_check (v : variant) (c : client) (a : evaluate_args)
    (tr : list http_request) :
  exactly_one a = false ->
  run_evaluate v c a tr = (inl (ArgumentError (fault_of a)), tr).
Proof.
  intros Hone. rewrite evaluate_on_eq.
  unfold evaluate, mbind, io_bind, bind, check_input, fault_of.
  destruct (exactly_one_false a Hone) as [[[ms ->] [tx ->]] | [-> ->]];
    reflexivity.
Qed.

Lemma classify_auth resp :
  status_code resp = 401%Z \/ status_code resp = 403%Z ->
  classify resp = inl (NopeAuthError (status_code resp) (error_message resp)).
Proof. unfold handle_response. by intros [-> | ->]. Qed.

Lemma classify_validation resp :
  status_code resp = 400%Z \/ status_code resp = 422%Z ->
  classify resp =
  inl (NopeValidationError (status_code resp) (error_message resp)).
Proof. unfold handle_response. by intros [-> | ->]. Qed.

Lemma classify_rate_limit resp :
  status_code resp = 429%Z ->
  classify resp =
  inl (NopeRateLimitError (status_code resp) (error_message resp)
         (retry_after malformed_retry_after resp)).
Proof. unfold handle_response. by intros ->. Qed.

Lemma classify_server resp :
  (500 <= status_code resp <= 599)%Z ->
  classify resp = inl (NopeServerError (status_code resp) (error_message resp)).
Proof.
  unfold handle_response. intros Hs.
  destruct (Z.leb_spec 200 (status_code resp)); [|lia].
  destruct (Z.ltb_spec (status_code resp) 300); [lia|]. simpl.
  destruct (Z.eqb_spec (status_code resp) 401); [lia|].
  destruct (Z.eqb_spec (status_code resp) 403); [lia|]. simpl.
  destruct (Z.eqb_spec (status_code resp) 400); [lia|].
  destruct (Z.eqb_spec (status_code resp) 422); [lia|]. simpl.
  destruct (Z.eqb_spec (status_code resp) 429); [lia|].
  destruct (Z.leb_spec 500 (status_code resp)); [|lia].
  destruct (Z.ltb_spec (status_code resp) 600); [|lia]. done.
Qed.

(** C2. Whatever reply [evaluate] receives for the request it sent: a
    status of 401 or 403 raises [NopeAuthError], 400 or 422
    [NopeValidationError], 429 [NopeRateLimitError], any status from 500 to
    599 [NopeServerError], each carrying the status code; a failure of the
    connection raises [NopeConnectionError]. On 429, [retry_after] is the
    integer read from the [Retry-After] header, and [None] without that
    header. *)
Theorem evaluate_error_mapping (v : variant) (c : client) (a : evaluate_args)
    (request : pyobj) (tr : list http_request) :
  exactly_one a = true ->
  construct EvaluateRequest (request_kwargs a) = Valid request ->
  let outcome := (run_evaluate v c a tr).1 in
  match network tr (request_for c request) with
  | Failure cause => outcome = inl (NopeConnectionError cause)
  | Reply resp =>
      let s := status_code resp in
      let msg := error_message resp in
      (s = 401%Z \/ s = 403%Z -> raises outcome (NopeAuthError s msg) s) /\
      (s = 400%Z \/ s = 422%Z -> raises outcome (NopeValidationError s msg) s) /\
      (s = 429%Z ->
       exists r, raises outcome (NopeRateLimitError s msg r) s /\
         (headers resp !! "Retry-After" = None -> r = None) /\
         (forall h n, headers resp !! "Retry-After" = Some h ->
                      parse_seconds h = Some n -> r = Some n)) /\
      ((500 <= s <= 599)%Z -> raises outcome (NopeServerError s msg) s)
  end.
Proof.
  intros Hone Hreq outcome. subst outcome.
  rewrite (evaluate_run v c a request tr Hone Hreq). cbn [fst].
  destruct (network tr (request_for c request)) as [resp|cause];
    unfold handle_reply; [|done].
  cbv zeta. unfold raises. repeat split.
  - by rewrite classify_auth.
  - by rewrite classify_validation.
  - intros Hs. eexists. split; [split|split].
    + by rewrite classify_rate_limit.
    + done.
    + unfold retry_after. by intros ->.
    + unfold retry_after. by intros h n -> ->.
  - by rewrite classify_server.
Qed.

(** What [evaluate] hands to the transport: nothing, or one request to
    the evaluation endpoint. *)
Lemma evaluate_trace v c a tr :
  exists sent, (run_evaluate v c a tr).2 = (tr ++ sent) /\
               Forall (fun req => url req = evaluate_url c) sent.
Proof.
  destruct (exactly_one a) eqn:Hone.
  - destruct (construct EvaluateRequest (request_kwargs a)) as [request|es]
      eqn:Hreq.
    + rewrite (evaluate_run v c a request tr Hone Hreq). cbn [snd].
      exists [request_for c request]. split; [done|].
      by apply Forall_singleton.
    + exists []. split; [|constructor]. rewrite evaluate_on_eq.
      unfold evaluate, mbind, io_bind, bind. rewrite Hreq.
      assert (check_input a tr = (inr tt, tr)) as ->.
      { unfold check_input.
        by destruct (exactly_one_true a Hone) as [[[ms ->] ->] | [-> [tx ->]]]. }
      cbv [of_validation raise]. cbv beta iota. cbn [snd].
      by rewrite app_nil_r.
  - exists []. split; [|constructor].
    rewrite evaluate_on_eq.
    unfold evaluate, mbind, io_bind, bind, check_input.
    destruct (exactly_one_false a Hone) as [[[ms ->] [tx ->]] | [-> ->]];
      cbv [raise]; cbn [snd]; by rewrite app_nil_r.
Qed.

Lemma rstrip_slash_last s : last_char (rstrip_slash s) <> Some slash.
Proof.
  induction s as [|c s IH]; simpl; [done|].
  destruct (rstrip_slash s) as [|c' s'] eqn:Hs.
  - destruct (Ascii.eqb_spec c slash); simpl; congruence.
  - exact IH.
Qed.

Lemma rstrip_slash_id s : last_char s <> Some slash -> rstrip_slash s = s.
Proof.
  induction s as [|c s IH]; simpl; [done|]. intros Hl.
  destruct s as [|c' s'].
  - simpl. destruct (Ascii.eqb_spec c slash); congruence.
  - rewrite IH by exact Hl. done.
Qed.

Lemma rstrip_slash_app s : rstrip_slash (s +:+ "/") = rstrip_slash s.
Proof.
  induction s as [|c s IH]; simpl; [done|]. by rewrite IH.
Qed.

(** C8. The constructor strips the trailing slash of the base URL: a URL
    with a single trailing slash loses it, the effective base URL never
    ends in a slash, so [{base_url}/v1/evaluate], the target of every
    request [evaluate] sends, has no double slash at the joint; left out,
    the base URL is [https://api.nope.net] and the timeout 30 seconds. *)
Theorem base_url_normalised (key : option string) (u : option string)
    (t : option Q) :
  let c := NopeClient key u t in
  (forall p, u = Some (p +:+ "/") -> last_char p <> Some slash ->
             base_url c = p) /\
  (u = Some "http://localhost:8788/" ->
   base_url c = "http://localhost:8788" /\
   evaluate_url c = "http://localhost:8788/v1/evaluate") /\
  last_char (base_url c) <> Some slash /\
  evaluate_url c = base_url c +:+ "/v1/evaluate" /\
  (forall v a tr, exists sent,
      (run_evaluate v c a tr).2 = (tr ++ sent) /\
      Forall (fun req => url req = base_url c +:+ "/v1/evaluate") sent) /\
  (u = None -> base_url c = "https://api.nope.net") /\
  (t = None -> timeout c = 30%Q).
Proof.
  intros c. subst c.
  refine (conj _ (conj _ (conj _ (conj _ (conj _ (conj _ _)))))).
  - intros p -> Hp. change (rstrip_slash (p +:+ "/") = p).
    rewrite rstrip_slash_app. by apply rstrip_slash_id.
  - by intros ->.
  - apply rstrip_slash_last.
  - done.
  - intros v a tr. apply evaluate_trace.
  - by intros ->.
  - by intros ->.
Qed.

End ClientFacts.

Lemma evaluate_input_check_witness :
  exactly_one args_both = false /\
  Client.evaluate_on network_429 message_of as_base_error no_seconds
    Client.NonBlocking sample_client args_both [] =
  (inl (Client.ArgumentError Client.BothProvided), []).
Proof.
  assert (exactly_one args_both = false) as H by (vm_compute; reflexivity).
  split; [exact H|].
  exact (evaluate_input_check network_429 message_of as_base_error no_seconds
           Client.NonBlocking sample_client args_both [] H).
Defined.

Lemma evaluate_error_mapping_witness :
  exactly_one args_messages = true /\
  construct EvaluateRequest (Client.request_kwargs args_messages)
    = Valid sample_request /\
  raises
    (Client.evaluate_on network_429 message_of as_base_error no_seconds
       Client.Blocking sample_client args_messages []).1
    (Client.NopeRateLimitError 429 "Rate limit exceeded" (Some 30%Z)) 429.
Proof.
  assert (exactly_one args_messages = true) as H1 by (vm_compute; reflexivity).
  assert (construct EvaluateRequest (Client.request_kwargs args_messages)
          = Valid sample_request) as H2 by (vm_compute; reflexivity).
  split; [exact H1|]. split; [exact H2|].
  pose proof (evaluate_error_mapping network_429 message_of as_base_error
                no_seconds Client.Blocking sample_client args_messages
                sample_request [] H1 H2) as H.
  cbv zeta in H. unfold network_429 at 5 in H.
  destruct H as (_ & _ & H & _).
  destruct (H eq_refl) as (r & Hr & _ & Hh).
  rewrite (Hh "30" 30%Z eq_refl eq_refl) in Hr. exact Hr.
Defined.

Lemma base_url_normalised_witness :
  last_char "http://localhost:8788" <> Some Client.slash /\
  Client.base_url
    (Client.NopeClient (Some "test_key") (Some "http://localhost:8788/") None)
  = "http://localhost:8788".
Proof.
  assert (last_char "http://localhost:8788" <> Some Client.slash) as H
    by (vm_compute; discriminate).
  split; [exact H|].
  exact (proj1 (base_url_normalised network_429 message_of as_base_error
                  no_seconds (Some "test_key")
                  (Some "http://localhost:8788/") None)
           "http://localhost:8788" eq_refl H).
Defined.

(** ** How a failure surfaces *)

Lemma validate_model_eq cls pbn fields m :
  validate (TModel cls pbn fields) (JObj m) =
  vmap (PModel cls)
    (validate_fields pbn m (map (fun f => (f.1, validate f.2)) fields)).
Proof. reflexivity. Qed.

Lemma validate_union_eq members j :
  validate (TUnion members) j =
  validate_union (map (fun m => (type_tag m, validate m)) members) j.
Proof. reflexivity. Qed.

Lemma validate_list_eq t items :
  validate (TList t) (JArr items) =
  vmap PList (validate_items (validate t) 0 items).
Proof. reflexivity. Qed.

Lemma find_key_single k m :
  find_key [k] m = (fun v => (k, v)) <$> m !! k.
Proof. simpl. by destruct (m !! k). Qed.

Lemma vcons_invalid_l {A} es (rs : validation (list A)) :
  exists es', vcons (Invalid es) rs = Invalid es' /\ es ⊆ es'.
Proof.
  destruct rs as [l|es2]; simpl; eexists; (split; [done|]).
  - done.
  - intros e He. apply elem_of_app. by left.
Qed.

Lemma vcons_invalid_r {A} (r : validation A) es :
  exists es', vcons r (Invalid es) = Invalid es' /\ es ⊆ es'.
Proof.
  destruct r as [a|es1]; simpl; eexists; (split; [done|]).
  - done.
  - intros e He. apply elem_of_app. by right.
Qed.

Lemma validate_fields_invalid pbn m fs f es :
  f ∈ fs -> validate_field pbn m f = Invalid es ->
  exists es', validate_fields pbn m fs = Invalid es' /\ es ⊆ es'.
Proof.
  induction fs as [|g fs IH]; intros Hin Hf.
  - by apply elem_of_nil in Hin.
  - simpl. apply elem_of_cons in Hin as [<-|Hin].
    + rewrite Hf. apply vcons_invalid_l.
    + destruct (IH Hin Hf) as (es1 & -> & Hsub).
      destruct (vcons_invalid_r (validate_field pbn m g) es1) as (es2 & -> & Hsub2).
      exists es2. split; [done|]. by etrans.
Qed.

Lemma validate_model_invalid cls pbn fields m fi ft k v es :
  (fi, ft) ∈ fields ->
  find_key (lookup_keys pbn fi) m = Some (k, v) ->
  validate ft v = Invalid es ->
  exists es', validate (TModel cls pbn fields) (JObj m) = Invalid es' /\
              (under (LKey k) <$> es) ⊆ es'.
Proof.
  intros Hin Hk Hv. rewrite validate_model_eq.
  destruct (validate_fields_invalid pbn m
              (map (fun f => (f.1, validate f.2)) fields)
              (fi, validate ft) (under (LKey k) <$> es)) as (es' & -> & Hsub).
  - apply (list_elem_of_fmap_2 (fun f => (f.1, validate f.2)) _ (fi, ft)), Hin.
  - unfold validate_field. by rewrite Hk, Hv.
  - by exists es'.
Qed.

Lemma validate_items_invalid f items n x es i :
  items !! n = Some x -> f x = Invalid es ->
  exists es', validate_items f i items = Invalid es' /\
              (under (LIdx (i + n)) <$> es) ⊆ es'.
Proof.
  revert n i. induction items as [|y items IH]; intros n i Hn Hx; [done|].
  simpl. destruct n as [|n].
  - injection Hn as ->. rewrite Hx. simpl. rewrite Nat.add_0_r.
    apply vcons_invalid_l.
  - simpl in Hn. destruct (IH n (S i) Hn Hx) as (es1 & -> & Hsub).
    destruct (vcons_invalid_r (at_loc (LIdx i) (f y)) es1) as (es2 & -> & Hsub2).
    exists es2. split; [done|].
    replace (i + S n)%nat with (S i + n)%nat by lia. by etrans.
Qed.

Lemma validate_union_invalid members j :
  Forall (fun m => is_valid (m.2 j) = false) members ->
  exists es', validate_union members j = Invalid es' /\
    forall tag f es, (tag, f) ∈ members -> f j = Invalid es ->
                     (under (LKey tag) <$> es) ⊆ es'.
Proof.
  induction 1 as [|[tag f] members Hf _ IH]; simpl.
  - exists []. split; [done|]. intros tag f es Hin. by apply elem_of_nil in Hin.
  - simpl in Hf. destruct (f j) as [a|es] eqn:Hfj; [done|].
    destruct IH as (es1 & -> & Hall). eexists. split; [done|].
    intros tag' f' es' Hin Hf'. intros e He.
    apply elem_of_app. apply elem_of_cons in Hin as [[= -> ->]|Hin].
    + left. congruence.
    + right. by eapply Hall.
Qed.

Lemma validate_literal_invalid choices d :
  (forall s, d = JStr s -> s ∉ choices) ->
  validate (TLiteral choices) d = fail (LiteralError choices) d.
Proof.
  intros Hd. destruct d; try done. simpl.
  rewrite decide_False; [done|]. by apply Hd.
Qed.

Lemma field_invalid_is_invalid cls pbn fields m fi ft k v :
  (fi, ft) ∈ fields ->
  find_key (lookup_keys pbn fi) m = Some (k, v) ->
  is_valid (validate ft v) = false ->
  is_valid (validate (TModel cls pbn fields) (JObj m)) = false.
Proof.
  intros Hin Hk Hv. destruct (validate ft v) as [|es] eqn:Hft; [done|].
  by destruct (validate_model_invalid cls pbn fields m fi ft k v es)
    as (es' & -> & _).
Qed.

(** *** The four variants against an unknown discriminant *)

Lemma DomainAssessment_variants :
  DomainAssessment =
  TUnion (map (fun v => TModel v.1.1 false v.2) domain_variants).
Proof. reflexivity. Qed.

Lemma domain_variants_tagged :
  Forall (fun v => required "domain" (TLiteral [v.1.2]) ∈ v.2 /\
                   v.1.2 ∈ RiskDomain) domain_variants.
Proof.
  repeat constructor; cbn [fst snd];
    try (apply elem_of_app; right; left);
    unfold RiskDomain; set_solver.
Qed.

Lemma unknown_domain_literal d choice :
  ~ known_domain d -> choice ∈ RiskDomain ->
  validate (TLiteral [choice]) d = fail (LiteralError [choice]) d.
Proof.
  intros Hd Hc. apply validate_literal_invalid. intros s -> Hs.
  apply list_elem_of_singleton in Hs as ->. apply Hd. by exists choice.
Qed.

Lemma variant_rejects_unknown cls fields o d choice :
  required "domain" (TLiteral [choice]) ∈ fields ->
  choice ∈ RiskDomain ->
  o !! "domain" = Some d -> ~ known_domain d ->
  exists es, validate (TModel cls false fields) (JObj o) = Invalid es /\
             ErrorDetails [LKey "domain"] (LiteralError [choice]) d ∈ es.
Proof.
  intros Hin Hc Ho Hd.
  destruct (validate_model_invalid cls false fields o
              (FieldInfo "domain" None None) (TLiteral [choice]) "domain" d
              [ErrorDetails [] (LiteralError [choice]) d])
    as (es & Hes & Hsub).
  - exact Hin.
  - unfold lookup_keys; simpl falias; cbv iota. rewrite find_key_single.
    simpl fname. by rewrite Ho.
  - by apply unknown_domain_literal.
  - exists es. split; [done|]. apply Hsub. by left.
Qed.

Lemma domain_rejects_unknown o d :
  o !! "domain" = Some d -> ~ known_domain d ->
  exists es, validate DomainAssessment (JObj o) = Invalid es /\
    forall cls choice fields, (cls, choice, fields) ∈ domain_variants ->
      ErrorDetails [LKey cls; LKey "domain"] (LiteralError [choice]) d ∈ es.
Proof.
  intros Ho Hd.
  rewrite DomainAssessment_variants, validate_union_eq, map_map.
  pose proof domain_variants_tagged as Htag.
  destruct (validate_union_invalid
    (map (fun v => (type_tag (TModel v.1.1 false v.2),
                    validate (TModel v.1.1 false v.2))) domain_variants)
    (JObj o)) as (es & -> & Hes).
  { apply Forall_fmap. eapply Forall_impl; [exact Htag|].
    intros [[cls choice] fields] [Hin Hc]. cbn [fst snd] in *.
    unfold compose. cbv beta. cbn [fst snd].
    by destruct (variant_rejects_unknown cls fields o d choice)
      as (es & -> & _). }
  exists es. split; [done|]. intros cls choice fields Hin.
  rewrite Forall_forall in Htag.
  destruct (Htag _ Hin) as [Hf Hc]. cbn [fst snd] in *.
  destruct (variant_rejects_unknown cls fields o d choice Hf Hc Ho Hd)
    as (es1 & Hv & He).
  apply (Hes cls (validate (TModel cls false fields)) es1).
  - apply (list_elem_of_fmap_2
             (fun v => (type_tag (TModel v.1.1 false v.2),
                        validate (TModel v.1.1 false v.2))) _
             (cls, choice, fields)), Hin.
  - exact Hv.
  - apply (list_elem_of_fmap_2 (under (LKey cls)) _
             (ErrorDetails [LKey "domain"] (LiteralError [choice]) d)), He.
Qed.

(** C3. A raw response holding, in its [domains] list, an assessment whose
    [domain] lies outside [self], [others], [dependent_at_risk] and
    [victimisation] does not parse: validation fails, and the error names,
    for each variant of the union, the place of the field
    ([domains], the index, the variant, [domain]), what was expected
    there, and the value found. *)
Theorem unknown_domain_rejected (m : gmap string json) (items : list json)
    (i : nat) (o : gmap string json) (d : json) :
  m !! "domains" = Some (JArr items) ->
  items !! i = Some (JObj o) ->
  o !! "domain" = Some d ->
  ~ known_domain d ->
  exists errors,
    validate EvaluateResponse (JObj m) = Invalid errors /\
    forall cls choice fields, (cls, choice, fields) ∈ domain_variants ->
      ErrorDetails [LKey "domains"; LIdx i; LKey cls; LKey "domain"]
                   (LiteralError [choice]) d ∈ errors.
Proof.
  intros Hm Hi Ho Hd.
  destruct (domain_rejects_unknown o d Ho Hd) as (es1 & H1 & I1).
  destruct (validate_items_invalid (validate DomainAssessment) items i
              (JObj o) es1 0 Hi H1) as (es2 & H2 & I2).
  destruct (validate_model_invalid "EvaluateResponse" true
              EvaluateResponse_fields m (FieldInfo "domains" None None)
              (TList DomainAssessment) "domains" (JArr items) es2)
    as (es3 & H3 & I3).
  - left.
  - unfold lookup_keys; simpl falias; cbv iota. rewrite find_key_single.
    simpl fname. by rewrite Hm.
  - rewrite validate_list_eq. by rewrite H2.
  - exists es3. split; [exact H3|]. intros cls choice fields Hin.
    apply I3.
    apply (list_elem_of_fmap_2 (under (LKey "domains")) _
             (ErrorDetails [LIdx i; LKey cls; LKey "domain"]
                (LiteralError [choice]) d)).
    apply I2.
    apply (list_elem_of_fmap_2 (under (LIdx (0 + i))) _
             (ErrorDetails [LKey cls; LKey "domain"]
                (LiteralError [choice]) d)).
    by eapply I1.
Qed.

Lemma unknown_domain_rejected_witness :
  ~ known_domain (JStr "stranger") /\
  exists errors,
    validate EvaluateResponse (JObj stranger_response) = Invalid errors /\
    ErrorDetails [LKey "domains"; LIdx 0; LKey "SelfDomainAssessment";
                  LKey "domain"] (LiteralError ["self"]) (JStr "stranger")
      ∈ errors.
Proof.
  assert (~ known_domain (JStr "stranger")) as Hd.
  { intros (s & [= <-] & Hs). unfold RiskDomain in Hs.
    repeat (apply elem_of_cons in Hs as [Hs|Hs]; [discriminate Hs|]).
    by apply elem_of_nil in Hs. }
  split; [exact Hd|].
  destruct (unknown_domain_rejected stranger_response
              [JObj stranger_domain] 0 stranger_domain (JStr "stranger")
              eq_refl eq_refl eq_refl Hd) as (errors & Hv & He).
  exists errors. split; [exact Hv|].
  apply (He "SelfDomainAssessment" "self" SelfDomainAssessment_fields).
  left.
Defined.

(** ** Keys the schema does not know *)

Lemma find_key_agree keys (m m' : gmap string json) :
  (forall k, k ∈ keys -> m' !! k = m !! k) ->
  find_key keys m' = find_key keys m.
Proof.
  induction keys as [|k keys IH]; intros Hk; simpl; [done|].
  rewrite Hk by left. destruct (m !! k); [done|].
  apply IH. intros k' Hin. apply Hk. by right.
Qed.

Lemma validate_model_agree cls pbn fields (m m' : gmap string json) r :
  (forall k, k ∈ recognised_keys pbn fields -> m' !! k = m !! k) ->
  validate (TModel cls pbn fields) (JObj m) = Valid r ->
  validate (TModel cls pbn fields) (JObj m') = Valid r.
Proof.
  intros Hk. rewrite !validate_model_eq. intros Hv.
  apply vmap_valid in Hv as (kvs & Hv & ->).
  enough (validate_fields pbn m' (map (fun f => (f.1, validate f.2)) fields)
          = Valid kvs) as -> by done.
  revert kvs Hk Hv. unfold recognised_keys.
  induction fields as [|[fi ft] fields IH]; intros kvs Hk Hv; [done|].
  simpl in Hv |- *. simpl in Hk.
  apply vcons_valid in Hv as (kv & kvs' & Hf & Hrest & ->).
  rewrite (IH kvs'); [| |exact Hrest].
  - rewrite (find_key_agree _ m m')
      by (intros k Hin; apply Hk, elem_of_app; by left).
    simpl in Hf. destruct (find_key (lookup_keys pbn fi) m) as [[k v]|].
    + by rewrite Hf.
    + destruct (fdefault fi); [by rewrite Hf|done].
  - intros k Hin. apply Hk, elem_of_app. by right.
Qed.

Lemma EvaluateResponse_recognised_keys :
  recognised_keys true EvaluateResponse_fields =
  [ "domains"; "global"; "global_"; "legal_flags"; "presentation_modifiers";
    "safeguarding_flags"; "protective_factors_info"; "confidence";
    "agreement"; "crisis_resources"; "widget_url"; "recommended_reply";
    "proposed_response_evaluation"; "coping_recommendations"; "metadata" ].
Proof. reflexivity. Qed.

(** C6. Keys that [EvaluateResponse] does not know, added to the top level
    of a raw response that parses, change nothing: the response with the
    extra keys parses, and to the same value. *)
Theorem unknown_keys_ignored (m extra : gmap string json) (r : pyobj) :
  (forall k, k ∈ recognised_keys true EvaluateResponse_fields ->
             extra !! k = None) ->
  validate EvaluateResponse (JObj m) = Valid r ->
  validate EvaluateResponse (JObj (m ∪ extra)) = Valid r /\
  validate EvaluateResponse (JObj (extra ∪ m)) = Valid r.
Proof.
  intros Hextra Hv. split.
  - apply (validate_model_agree _ _ _ m); [|exact Hv].
    intros k Hk. apply lookup_union_l. by apply Hextra.
  - apply (validate_model_agree _ _ _ m); [|exact Hv].
    intros k Hk. apply lookup_union_r. by apply Hextra.
Qed.

Lemma unknown_keys_ignored_witness :
  validate EvaluateResponse (JObj plain_response) = Valid plain_parsed /\
  validate EvaluateResponse (JObj (plain_response ∪ unknown_extras))
    = Valid plain_parsed.
Proof.
  assert (validate EvaluateResponse (JObj plain_response) = Valid plain_parsed)
    as Hv by (vm_compute; reflexivity).
  split; [exact Hv|].
  refine (proj1 (unknown_keys_ignored plain_response unknown_extras
                   plain_parsed _ Hv)).
  intros k Hk. rewrite EvaluateResponse_recognised_keys in Hk.
  repeat (apply elem_of_cons in Hk as [->|Hk]; [reflexivity|]).
  by apply elem_of_nil in Hk.
Defined.

(** ** Field by field *)

Lemma validate_field_present pbn (m : gmap string json) name d f v :
  m !! name = Some v ->
  validate_field pbn m (FieldInfo name None d, f) =
  vmap (pair name) (at_loc (LKey name) (f v)).
Proof.
  intros Hm. unfold validate_field, lookup_keys. cbn [falias fname].
  rewrite find_key_single. by rewrite Hm.
Qed.

Lemma validate_field_alias pbn (m : gmap string json) name alias d f v :
  m !! alias = Some v ->
  validate_field pbn m (FieldInfo name (Some alias) d, f) =
  vmap (pair name) (at_loc (LKey alias) (f v)).
Proof.
  intros Hm. unfold validate_field, lookup_keys. cbn [falias fname].
  destruct pbn; simpl; by rewrite Hm.
Qed.

Lemma validate_field_default pbn (m : gmap string json) name d f :
  m !! name = None ->
  validate_field pbn m (FieldInfo name None (Some d), f) = Valid (name, d).
Proof.
  intros Hm. unfold validate_field, lookup_keys. cbn [falias fname fdefault].
  rewrite find_key_single. by rewrite Hm.
Qed.

Lemma validate_field_missing pbn (m : gmap string json) name f :
  m !! name = None ->
  validate_field pbn m (FieldInfo name None None, f) =
  Invalid [ErrorDetails [LKey name] Missing (JObj m)].
Proof.
  intros Hm. unfold validate_field, lookup_keys. cbn [falias fname fdefault].
  rewrite find_key_single. by rewrite Hm.
Qed.

Lemma validate_fields_app pbn m fs1 fs2 :
  validate_fields pbn m (fs1 ++ fs2) =
  match validate_fields pbn m fs1, validate_fields pbn m fs2 with
  | Valid l1, Valid l2 => Valid (l1 ++ l2)
  | Valid _, Invalid es => Invalid es
  | Invalid es, Valid _ => Invalid es
  | Invalid es, Invalid es' => Invalid (es ++ es')
  end.
Proof.
  induction fs1 as [|f fs1 IH]; simpl.
  - by destruct (validate_fields pbn m fs2).
  - rewrite IH.
    destruct (validate_field pbn m f), (validate_fields pbn m fs1),
      (validate_fields pbn m fs2); simpl; try done.
    by rewrite app_assoc.
Qed.

(** ** A response with nothing optional in it *)

(** C9. A raw response whose [domains] list is empty, whose [global],
    [confidence] and [crisis_resources] are present and valid, and whose
    optional aggregate fields are all absent, parses: the result has an
    empty [domains] list and [None] in every optional field. *)
Theorem empty_response_parses (m : gmap string json)
    (g c rs : json) (g' c' : pyobj) (rs' : list pyobj) :
  m !! "domains" = Some (JArr []) ->
  m !! "global" = Some g ->
  validate GlobalAssessment g = Valid g' ->
  m !! "confidence" = Some c ->
  validate (TFloat (Some 0%Q) (Some 1%Q)) c = Valid c' ->
  m !! "crisis_resources" = Some rs ->
  validate (TList CrisisResource) rs = Valid (PList rs') ->
  (forall k, k ∈ optional_aggregates -> m !! k = None) ->
  validate EvaluateResponse (JObj m) =
  Valid (PModel "EvaluateResponse"
           [ ("domains", PList []);
             ("global_", g');
             ("legal_flags", PNone);
             ("presentation_modifiers", PNone);
             ("safeguarding_flags", PNone);
             ("protective_factors_info", PNone);
             ("confidence", c');
             ("agreement", PNone);
             ("crisis_resources", PList rs');
             ("widget_url", PNone);
             ("recommended_reply", PNone);
             ("proposed_response_evaluation", PNone);
             ("coping_recommendations", PNone);
             ("metadata", PNone) ]).
Proof.
  intros Hd Hg Hg' Hc Hc' Hr Hr' Hopt.
  unfold EvaluateResponse. rewrite validate_model_eq.
  unfold EvaluateResponse_fields.
  cbv [required optional aliased with_default]. cbn [map fst snd].
  cbn [validate_fields].
  rewrite (validate_field_present _ _ "domains" _ _ _ Hd).
  rewrite (validate_field_alias _ _ "global_" "global" _ _ _ Hg).
  rewrite (validate_field_present _ _ "confidence" _ _ _ Hc).
  rewrite (validate_field_present _ _ "crisis_resources" _ _ _ Hr).
  rewrite !validate_field_default
    by (apply Hopt; unfold optional_aggregates; repeat constructor).
  rewrite Hg', Hc', Hr'. reflexivity.
Qed.

Lemma empty_response_parses_witness :
  plain_response !! "domains" = Some (JArr []) /\
  (forall k, k ∈ optional_aggregates -> plain_response !! k = None) /\
  validate EvaluateResponse (JObj plain_response) = Valid plain_parsed.
Proof.
  assert (forall k, k ∈ optional_aggregates -> plain_response !! k = None)
    as Hopt.
  { intros k Hk. unfold optional_aggregates in Hk.
    repeat (apply elem_of_cons in Hk as [->|Hk]; [reflexivity|]).
    by apply elem_of_nil in Hk. }
  split; [reflexivity|]. split; [exact Hopt|].
  refine (empty_response_parses plain_response sample_global
            (JFloat (1 # 2)) (JArr []) _ (PFloat (1 # 2)) []
            eq_refl eq_refl _ eq_refl eq_refl eq_refl eq_refl Hopt).
  vm_compute. reflexivity.
Defined.

(** ** Constructing a request *)

Lemma validate_field_optional pbn (m : gmap string json) name t v :
  match m !! name with
  | Some j => validate (TOptional t) j = Valid v
  | None => v = PNone
  end ->
  validate_field pbn m (FieldInfo name None (Some PNone),
                        validate (TOptional t)) = Valid (name, v).
Proof.
  destruct (m !! name) as [j|] eqn:Hm; intros Hv.
  - rewrite (validate_field_present _ _ _ _ _ _ Hm). by rewrite Hv.
  - subst v. by apply validate_field_default.
Qed.

(** C10. The [EvaluateRequest] model does not enforce that exactly one of
    [messages] and [text] is given: whether each of the two is absent or
    present (and then valid for its own type), construction succeeds; and a
    [config] left out is an [EvaluateConfig] with [None] in every field. *)
Theorem request_model_accepts_any_combination (kwargs : gmap string json)
    (messages text : pyobj) :
  match kwargs !! "messages" with
  | Some j => validate (TOptional (TList Message)) j = Valid messages
  | None => messages = PNone
  end ->
  match kwargs !! "text" with
  | Some j => validate (TOptional TStr) j = Valid text
  | None => text = PNone
  end ->
  kwargs !! "config" = None ->
  kwargs !! "user_context" = None ->
  kwargs !! "proposed_response" = None ->
  construct EvaluateRequest kwargs =
  Valid (PModel "EvaluateRequest"
           [ ("messages", messages);
             ("text", text);
             ("config",
              PModel "EvaluateConfig"
                [ ("user_country", PNone); ("locale", PNone);
                  ("user_age_band", PNone); ("policy_id", PNone);
                  ("dry_run", PNone); ("return_assistant_reply", PNone);
                  ("assistant_safety_mode", PNone);
                  ("use_multiple_judges", PNone); ("models", PNone);
                  ("conversation_id", PNone); ("end_user_id", PNone) ]);
             ("user_context", PNone);
             ("proposed_response", PNone) ]).
Proof.
  intros Hm Ht Hc Hu Hp.
  unfold construct, EvaluateRequest. rewrite validate_model_eq.
  cbv [required optional aliased with_default]. cbn [map fst snd].
  cbn [validate_fields].
  rewrite (validate_field_optional _ _ "messages" _ _ Hm).
  rewrite (validate_field_optional _ _ "text" _ _ Ht).
  rewrite !validate_field_default by assumption.
  rewrite default_config. reflexivity.
Qed.

Lemma request_model_accepts_any_combination_witness :
  kwargs_both !! "messages" = Some sample_messages /\
  kwargs_both !! "text" = Some (JStr "test") /\
  is_valid (construct EvaluateRequest kwargs_both) = true.
Proof.
  split; [reflexivity|]. split; [reflexivity|].
  rewrite (request_model_accepts_any_combination kwargs_both
             (PList [PModel "Message" [("role", PStr "user");
                                       ("content", PStr "test");
                                       ("timestamp", PNone)]])
             (PStr "test")
             eq_refl eq_refl eq_refl eq_refl eq_refl).
  reflexivity.
Defined.

(** ** The subtype field of each variant *)

Lemma validate_union_take tag (f : json -> validation pyobj) rest j v :
  f j = Valid v -> validate_union ((tag, f) :: rest) j = Valid v.
Proof. intros Hf. simpl. by rewrite Hf. Qed.

Lemma validate_union_skip tag (f : json -> validation pyobj) rest j :
  is_valid (f j) = false ->
  is_valid (validate_union rest j) = true ->
  validate_union ((tag, f) :: rest) j = validate_union rest j.
Proof.
  intros Hf Hr. simpl. destruct (f j); [done|].
  by destruct (validate_union rest j).
Qed.

(** A variant refuses the discriminant of another. *)
Lemma variant_rejects_other cls fields (o : gmap string json) choice d :
  required "domain" (TLiteral [choice]) ∈ fields ->
  o !! "domain" = Some (JStr d) -> d <> choice ->
  is_valid (validate (TModel cls false fields) (JObj o)) = false.
Proof.
  intros Hin Ho Hd.
  apply (field_invalid_is_invalid cls false fields o
           (FieldInfo "domain" None None) (TLiteral [choice]) "domain"
           (JStr d)).
  - exact Hin.
  - unfold lookup_keys. cbn [falias fname]. rewrite find_key_single.
    by rewrite Ho.
  - rewrite validate_literal_invalid; [done|].
    intros s [= <-] Hs. by apply list_elem_of_singleton in Hs.
Qed.

(** The inherited fields are validated as in the base class. *)
Lemma base_fields_valid (o : gmap string json) base :
  validate BaseDomainAssessment (JObj o)
    = Valid (PModel "BaseDomainAssessment" base) ->
  validate_fields false o
    (map (fun f => (f.1, validate f.2)) BaseDomainAssessment_fields)
  = Valid base.
Proof.
  unfold BaseDomainAssessment. rewrite validate_model_eq. intros H.
  apply vmap_valid in H as (kvs & -> & [= ->]). reflexivity.
Qed.

Lemma victimisation_subtype_optional (o : gmap string json) base :
  validate BaseDomainAssessment (JObj o)
    = Valid (PModel "BaseDomainAssessment" base) ->
  o !! "domain" = Some (JStr "victimisation") ->
  o !! "victimisation_subtype" = None ->
  validate VictimisationAssessment (JObj o) =
  Valid (PModel "VictimisationAssessment"
           (base ++ [ ("domain", PStr "victimisation");
                      ("victimisation_subtype", PNone) ])).
Proof.
  intros Hb Hd Hs. apply base_fields_valid in Hb.
  unfold VictimisationAssessment, VictimisationAssessment_fields.
  rewrite validate_model_eq, map_app, validate_fields_app, Hb.
  cbv [required optional]. cbn [map fst snd validate_fields].
  rewrite (validate_field_present _ _ "domain" _ _ _ Hd).
  rewrite (validate_field_default _ _ "victimisation_subtype" _ _ Hs).
  reflexivity.
Qed.

Lemma others_has_no_subtype (o : gmap string json) base :
  validate BaseDomainAssessment (JObj o)
    = Valid (PModel "BaseDomainAssessment" base) ->
  o !! "domain" = Some (JStr "others") ->
  validate OthersDomainAssessment (JObj o) =
  Valid (PModel "OthersDomainAssessment" (base ++ [("domain", PStr "others")])).
Proof.
  intros Hb Hd. apply base_fields_valid in Hb.
  unfold OthersDomainAssessment, OthersDomainAssessment_fields.
  rewrite validate_model_eq, map_app, validate_fields_app, Hb.
  cbv [required optional]. cbn [map fst snd validate_fields].
  rewrite (validate_field_present _ _ "domain" _ _ _ Hd).
  reflexivity.
Qed.

Lemma required_field_missing cls fields (o : gmap string json) name t :
  required name t ∈ fields -> o !! name = None ->
  exists es, validate (TModel cls false fields) (JObj o) = Invalid es /\
             ErrorDetails [LKey name] Missing (JObj o) ∈ es.
Proof.
  intros Hin Ho. rewrite validate_model_eq.
  destruct (validate_fields_invalid false o
              (map (fun f => (f.1, validate f.2)) fields)
              (FieldInfo name None None, validate t)
              [ErrorDetails [LKey name] Missing (JObj o)])
    as (es & -> & Hsub).
  - apply (list_elem_of_fmap_2 (fun f => (f.1, validate f.2)) _
             (required name t)), Hin.
  - by apply validate_field_missing.
  - exists es. split; [done|]. apply Hsub. left.
Qed.

(** The union takes the first member that validates. *)
Lemma validate_union_first pre tag (f : json -> validation pyobj) post j v :
  Forall (fun m => is_valid (m.2 j) = false) pre ->
  f j = Valid v ->
  validate_union (pre ++ (tag, f) :: post) j = Valid v.
Proof.
  intros Hpre Hf. induction Hpre as [|[tag' f'] pre Hf' _ IH].
  - by apply validate_union_take.
  - simpl in Hf' |- *. destruct (f' j); [done|].
    simpl in IH. by rewrite IH.
Qed.

Lemma domain_union_victimisation (o : gmap string json) v :
  o !! "domain" = Some (JStr "victimisation") ->
  validate VictimisationAssessment (JObj o) = Valid v ->
  validate DomainAssessment (JObj o) = Valid v.
Proof.
  intros Hd Hv. unfold DomainAssessment. rewrite validate_union_eq.
  apply (validate_union_first
           [ ("SelfDomainAssessment", validate SelfDomainAssessment);
             ("OthersDomainAssessment", validate OthersDomainAssessment);
             ("DependentAtRiskAssessment",
              validate DependentAtRiskAssessment) ]
           "VictimisationAssessment" (validate VictimisationAssessment) []);
    [|exact Hv].
  repeat constructor; cbn [snd].
  - apply (variant_rejects_other _ _ o "self" "victimisation");
      [apply elem_of_app; right; left | exact Hd | discriminate].
  - apply (variant_rejects_other _ _ o "others" "victimisation");
      [apply elem_of_app; right; left | exact Hd | discriminate].
  - apply (variant_rejects_other _ _ o "dependent_at_risk" "victimisation");
      [apply elem_of_app; right; left | exact Hd | discriminate].
Qed.

Lemma domain_union_others (o : gmap string json) v :
  o !! "domain" = Some (JStr "others") ->
  validate OthersDomainAssessment (JObj o) = Valid v ->
  validate DomainAssessment (JObj o) = Valid v.
Proof.
  intros Hd Hv. unfold DomainAssessment. rewrite validate_union_eq.
  apply (validate_union_first
           [ ("SelfDomainAssessment", validate SelfDomainAssessment) ]
           "OthersDomainAssessment" (validate OthersDomainAssessment)
           [ ("DependentAtRiskAssessment",
              validate DependentAtRiskAssessment);
             ("VictimisationAssessment",
              validate VictimisationAssessment) ]);
    [|exact Hv].
  repeat constructor; cbn [snd].
  apply (variant_rejects_other _ _ o "self" "others");
    [apply elem_of_app; right; left | exact Hd | discriminate].
Qed.

(** C4, as the code has it. Of the four variants only
    [VictimisationAssessment] adds an optional subtype: a raw assessment
    with discriminant [victimisation], valid base fields and no
    [victimisation_subtype] parses into that variant, with [None] for the
    subtype. [SelfDomainAssessment] and [DependentAtRiskAssessment] add a
    required subtype: without [self_subtype] (resp. [dependent_subtype])
    the variant is refused with a missing-field error.
    [OthersDomainAssessment] adds no subtype field: its instance holds the
    base fields and [domain], nothing else. *)
Theorem subtype_fields (o : gmap string json) (base : list (string * pyobj)) :
  validate BaseDomainAssessment (JObj o)
    = Valid (PModel "BaseDomainAssessment" base) ->
  (o !! "domain" = Some (JStr "victimisation") ->
   o !! "victimisation_subtype" = None ->
   validate DomainAssessment (JObj o) =
   Valid (PModel "VictimisationAssessment"
            (base ++ [ ("domain", PStr "victimisation");
                       ("victimisation_subtype", PNone) ]))) /\
  (o !! "domain" = Some (JStr "others") ->
   validate DomainAssessment (JObj o) =
   Valid (PModel "OthersDomainAssessment"
            (base ++ [("domain", PStr "others")]))) /\
  (o !! "self_subtype" = None ->
   exists es, validate SelfDomainAssessment (JObj o) = Invalid es /\
              ErrorDetails [LKey "self_subtype"] Missing (JObj o) ∈ es) /\
  (o !! "dependent_subtype" = None ->
   exists es, validate DependentAtRiskAssessment (JObj o) = Invalid es /\
              ErrorDetails [LKey "dependent_subtype"] Missing (JObj o) ∈ es).
Proof.
  intros Hb. refine (conj _ (conj _ (conj _ _))).
  - intros Hd Hs. apply domain_union_victimisation; [exact Hd|].
    by apply victimisation_subtype_optional.
  - intros Hd. apply domain_union_others; [exact Hd|].
    by apply others_has_no_subtype.
  - intros Hs. apply (required_field_missing _ _ o "self_subtype"
                        (TLiteral SelfSubtype)); [|exact Hs].
    apply elem_of_app. right. right. left.
  - intros Hs. apply (required_field_missing _ _ o "dependent_subtype"
                        (TLiteral DependentSubtype)); [|exact Hs].
    apply elem_of_app. right. right. left.
Qed.

Lemma subtype_fields_witness :
  validate BaseDomainAssessment (JObj victimisation_without_subtype)
    = Valid (PModel "BaseDomainAssessment" sample_base) /\
  victimisation_without_subtype !! "victimisation_subtype" = None /\
  validate DomainAssessment (JObj victimisation_without_subtype) =
  Valid (PModel "VictimisationAssessment"
           (sample_base ++ [ ("domain", PStr "victimisation");
                             ("victimisation_subtype", PNone) ])).
Proof.
  assert (validate BaseDomainAssessment (JObj victimisation_without_subtype)
          = Valid (PModel "BaseDomainAssessment" sample_base)) as Hb
    by (vm_compute; reflexivity).
  split; [exact Hb|]. split; [reflexivity|].
  exact (proj1 (subtype_fields victimisation_without_subtype sample_base Hb)
           eq_refl eq_refl).
Defined.

(** C4, as stated, fails: a raw [self] assessment with valid base fields,
    the right discriminant and no [self_subtype] does not parse, neither as
    [SelfDomainAssessment] nor through the union. *)
Lemma self_subtype_is_required :
  validate BaseDomainAssessment (JObj self_without_subtype)
    = Valid (PModel "BaseDomainAssessment" sample_base) /\
  self_without_subtype !! "domain" = Some (JStr "self") /\
  self_without_subtype !! "self_subtype" = None /\
  validate SelfDomainAssessment (JObj self_without_subtype) =
    Invalid [ErrorDetails [LKey "self_subtype"] Missing
               (JObj self_without_subtype)] /\
  is_valid (validate DomainAssessment (JObj self_without_subtype)) = false.
Proof.
  repeat split; vm_compute; reflexivity.
Qed.

(** ** Ranges *)

Lemma conforms_model_fields cls pbn fields v :
  conforms (TModel cls pbn fields) v ->
  exists kvs, v = PModel cls kvs /\
    Forall2 (fun f kv => kv.1 = fname f.1 /\ conforms f.2 kv.2) fields kvs.
Proof.
  intros (kvs & -> & H). exists kvs. split; [done|].
  revert kvs H. induction fields as [|f fields IH]; intros [|kv kvs] H;
    try done.
  destruct H as (Hk & Hx & H). constructor; [done|]. by apply IH.
Qed.

Lemma assoc_conforms fields kvs fi ft :
  Forall2 (fun f kv => kv.1 = fname f.1 /\ conforms f.2 kv.2) fields kvs ->
  NoDup (map (fun f => fname f.1) fields) ->
  (fi, ft) ∈ fields ->
  exists x, assoc (fname fi) kvs = Some x /\ conforms ft x.
Proof.
  induction 1 as [|f [k x] fields kvs [Hk Hx] _ IH]; intros Hnd Hin.
  - by apply elem_of_nil in Hin.
  - simpl in Hk, Hx. subst k. simpl in Hnd. apply NoDup_cons in Hnd as [Hf Hnd].
    simpl. apply elem_of_cons in Hin as [<-|Hin].
    + simpl. rewrite String.eqb_refl. eauto.
    + destruct (String.eqb_spec (fname fi) (fname f.1)) as [Heq|Hne].
      * exfalso. apply Hf. rewrite <- Heq.
        apply (list_elem_of_fmap_2 (fun f => fname f.1) _ (fi, ft)), Hin.
      * by apply IH.
Qed.

Lemma conforms_getattr cls pbn fields v fi ft :
  conforms (TModel cls pbn fields) v ->
  NoDup (map (fun f => fname f.1) fields) ->
  (fi, ft) ∈ fields ->
  exists x, getattr v (fname fi) = Some x /\ conforms ft x.
Proof.
  intros Hv Hnd Hin.
  apply conforms_model_fields in Hv as (kvs & -> & Hkvs).
  simpl. by eapply assoc_conforms.
Qed.

Lemma conforms_union members v :
  conforms (TUnion members) v -> exists m, m ∈ members /\ conforms m v.
Proof.
  simpl. induction members as [|m members IH]; [done|].
  intros [Hm|Hms].
  - exists m. split; [left|done].
  - destruct (IH Hms) as (m' & Hin & Hm'). exists m'. split; [by right|done].
Qed.


Lemma conforms_literal choices v :
  conforms (TLiteral choices) v -> one_of choices (Some v).
Proof. intros (s & -> & Hs). by exists s. Qed.

Lemma domain_variants_base :
  Forall (fun v => NoDup (map (fun f => fname f.1) v.2) /\
                   BaseDomainAssessment_fields ⊆ v.2) domain_variants.
Proof.
  unfold domain_variants.
  repeat (apply Forall_cons; split; [split|]); try apply Forall_nil;
    cbn [snd];
    first [ apply (bool_decide_unpack _); vm_compute; exact I
          | intros f Hf; apply elem_of_app; by left ].
Qed.



Ltac defaults_conform_tac :=
  cbv -[conforms];
  repeat match goal with
         | |- _ /\ _ => split
         | |- True => exact I
         | |- forall d, Some _ = Some d -> _ =>
             let H := fresh in intros ? H; injection H as <-
         | |- forall d, None = Some d -> _ => intros ? [=]
         | |- conforms (TOptional _) PNone => by left
         end.

Lemma EvaluateResponse_defaults : defaults_conform EvaluateResponse.
Proof.
  defaults_conform_tac.
  exists "v1". split; [done|]. left.
Qed.

Lemma DomainAssessment_defaults : defaults_conform DomainAssessment.
Proof. defaults_conform_tac. Qed.

Lemma EvaluateResponse_names :
  NoDup (map (fun f => fname f.1) EvaluateResponse_fields).
Proof. apply (bool_decide_unpack _). vm_compute. exact I. Qed.



Lemma domain_variants_defaults :
  Forall (fun v => defaults_conform (TModel v.1.1 false v.2)) domain_variants.
Proof.
  unfold domain_variants.
  repeat (apply Forall_cons; split); try apply Forall_nil;
    defaults_conform_tac.
Qed.


(** *** Refusals *)


Lemma unlisted_invalid choices j :
  unlisted choices j -> is_valid (validate (TLiteral choices) j) = false.
Proof. intros Hj. by rewrite validate_literal_invalid. Qed.




Lemma response_field_rejected (m : gmap string json) name t v :
  required name t ∈ EvaluateResponse_fields ->
  m !! name = Some v -> is_valid (validate t v) = false ->
  is_valid (validate EvaluateResponse (JObj m)) = false.
Proof.
  intros Hin Hm Hv.
  apply (field_invalid_is_invalid _ _ _ m (FieldInfo name None None) t name v).
  - exact Hin.
  - unfold lookup_keys. cbn [falias fname]. rewrite find_key_single.
    by rewrite Hm.
  - exact Hv.
Qed.





(** ** The union has at most one candidate

    The discriminants of the four variants differ, so a raw assessment
    validates as at most one of them: which member the union prefers when
    several validate never comes into play. *)

Lemma variant_accepts_own_domain cls fields choice j v :
  required "domain" (TLiteral [choice]) ∈ fields ->
  validate (TModel cls false fields) j = Valid v ->
  exists o, j = JObj o /\ o !! "domain" = Some (JStr choice).
Proof.
  intros Hin Hv. destruct j as [| | | | | |o]; try discriminate Hv.
  exists o. split; [done|].
  destruct (o !! "domain") as [d|] eqn:Hd.
  - assert (d = JStr choice \/
            is_valid (validate (TLiteral [choice]) d) = false) as [->|Hbad].
    { destruct d as [| | | |s| |];
        try (right; by rewrite validate_literal_invalid).
      destruct (decide (s = choice)) as [->|Hne]; [by left|right].
      rewrite validate_literal_invalid; [done|].
      intros s' [= <-] Hs. by apply list_elem_of_singleton in Hs. }
    + done.
    + exfalso.
      assert (is_valid (validate (TModel cls false fields) (JObj o)) = false)
        as Hno.
      { apply (field_invalid_is_invalid cls false fields o
                 (FieldInfo "domain" None None) (TLiteral [choice])
                 "domain" d); [exact Hin| |exact Hbad].
        unfold lookup_keys. cbn [falias fname]. rewrite find_key_single.
        by rewrite Hd. }
      by rewrite Hv in Hno.
  - exfalso.
    destruct (required_field_missing cls fields o "domain"
                (TLiteral [choice]) Hin Hd) as (es & Hes & _).
    congruence.
Qed.


(** ** Reading the seconds of [Retry-After] *)

Lemma parse_digits_snoc acc s c n d :
  Client.parse_digits acc s = Some n ->
  Client.digit_of c = Some d ->
  Client.parse_digits acc (s +:+ String c EmptyString) = Some (10 * n + d)%Z.
Proof.
  revert acc. induction s as [|c' s IH]; simpl; intros acc Hs Hd.
  - injection Hs as <-. by rewrite Hd.
  - destruct (Client.digit_of c') as [d'|]; [|done]. by apply IH.
Qed.

Lemma parse_seconds_30 : Client.parse_seconds "30" = Some 30%Z.
Proof. reflexivity. Qed.

(** * Further properties of the schema *)

(** ** Tools *)

Lemma field_missing_reported cls pbn fields (m : gmap string json) fi ft :
  (fi, ft) ∈ fields ->
  find_key (lookup_keys pbn fi) m = None -> fdefault fi = None ->
  exists es, validate (TModel cls pbn fields) (JObj m) = Invalid es /\
             ErrorDetails [LKey (report_key fi)] Missing (JObj m) ∈ es.
Proof.
  intros Hin Hk Hd. rewrite validate_model_eq.
  destruct (validate_fields_invalid pbn m
              (map (fun f => (f.1, validate f.2)) fields)
              (fi, validate ft)
              [ErrorDetails [LKey (report_key fi)] Missing (JObj m)])
    as (es & -> & Hsub).
  - apply (list_elem_of_fmap_2 (fun f => (f.1, validate f.2)) _ (fi, ft)), Hin.
  - unfold validate_field. by rewrite Hk, Hd.
  - exists es. split; [done|]. apply Hsub. left.
Qed.

Lemma validate_fields_valid_ext pbn (m m' : gmap string json) fs kvs :
  (forall f kv, f ∈ fs -> validate_field pbn m f = Valid kv ->
                validate_field pbn m' f = Valid kv) ->
  validate_fields pbn m fs = Valid kvs ->
  validate_fields pbn m' fs = Valid kvs.
Proof.
  revert kvs. induction fs as [|f fs IH]; intros kvs Hf Hv; [done|].
  simpl in Hv |- *.
  apply vcons_valid in Hv as (kv & kvs' & Hkv & Hrest & ->).
  rewrite (Hf f kv) by (by left || done).
  rewrite (IH kvs'); [done| |done].
  intros g kv' Hg. apply Hf. by right.
Qed.

Lemma validate_model_valid_ext cls pbn fields (m m' : gmap string json) r :
  (forall f kv, f ∈ fields ->
     validate_field pbn m (f.1, validate f.2) = Valid kv ->
     validate_field pbn m' (f.1, validate f.2) = Valid kv) ->
  validate (TModel cls pbn fields) (JObj m) = Valid r ->
  validate (TModel cls pbn fields) (JObj m') = Valid r.
Proof.
  intros Hf. rewrite !validate_model_eq. intros Hv.
  apply vmap_valid in Hv as (kvs & Hv & ->).
  rewrite (validate_fields_valid_ext pbn m m' _ kvs); [done| |done].
  intros f kv Hin. apply list_elem_of_fmap in Hin as (g & -> & Hg).
  by apply Hf.
Qed.

(** A field read under one key sees only that key. *)
Lemma validate_field_same_lookup pbn (m m' : gmap string json) name d f :
  m' !! name = m !! name ->
  forall kv,
    validate_field pbn m (FieldInfo name None d, f) = Valid kv ->
    validate_field pbn m' (FieldInfo name None d, f) = Valid kv.
Proof.
  intros Hm kv. unfold validate_field, lookup_keys. cbn [falias fname fdefault].
  rewrite !find_key_single, Hm. destruct (m !! name); simpl; [done|].
  by destruct d.
Qed.

(** ** Required fields of the response *)

(** X1. A raw response that lacks one of [domains], [global] (under either
    of its keys), [confidence] or [crisis_resources] does not parse, and
    the one error list names every required key that is missing, each with
    a missing-field error; [global_] is reported under its alias. *)
Theorem missing_required_reported (m : gmap string json) :
  (m !! "domains" = None \/ (m !! "global" = None /\ m !! "global_" = None) \/
   m !! "confidence" = None \/ m !! "crisis_resources" = None) ->
  exists es,
    validate EvaluateResponse (JObj m) = Invalid es /\
    (forall k, k ∈ ["domains"; "confidence"; "crisis_resources"] ->
               m !! k = None -> ErrorDetails [LKey k] Missing (JObj m) ∈ es) /\
    (m !! "global" = None -> m !! "global_" = None ->
     ErrorDetails [LKey "global"] Missing (JObj m) ∈ es).
Proof.
  intros Hsome.
  assert (forall k t, required k t ∈ EvaluateResponse_fields ->
            m !! k = None ->
            exists es, validate EvaluateResponse (JObj m) = Invalid es /\
                       ErrorDetails [LKey k] Missing (JObj m) ∈ es) as Hreq.
  { intros k t Hin Hk.
    apply (field_missing_reported _ _ _ m (FieldInfo k None None) t Hin);
      [|done].
    unfold lookup_keys. cbn [falias fname]. rewrite find_key_single.
    by rewrite Hk. }
  assert (m !! "global" = None -> m !! "global_" = None ->
          exists es, validate EvaluateResponse (JObj m) = Invalid es /\
                     ErrorDetails [LKey "global"] Missing (JObj m) ∈ es)
    as Hglob.
  { intros Hg Hg'.
    apply (field_missing_reported _ _ _ m
             (FieldInfo "global_" (Some "global") None) GlobalAssessment);
      [unfold EvaluateResponse_fields; repeat constructor | | done].
    simpl. by rewrite Hg, Hg'. }
  assert (required "domains" (TList DomainAssessment)
            ∈ EvaluateResponse_fields) as Hd
    by (unfold EvaluateResponse_fields; repeat constructor).
  assert (required "confidence" (TFloat (Some 0%Q) (Some 1%Q))
            ∈ EvaluateResponse_fields) as Hc
    by (unfold EvaluateResponse_fields; repeat constructor).
  assert (required "crisis_resources" (TList CrisisResource)
            ∈ EvaluateResponse_fields) as Hr
    by (unfold EvaluateResponse_fields; repeat constructor).
  assert (exists es, validate EvaluateResponse (JObj m) = Invalid es)
    as [es Hes].
  { destruct Hsome as [H | [[H H'] | [H | H]]].
    - destruct (Hreq _ _ Hd H) as (es & ? & _). eauto.
    - destruct (Hglob H H') as (es & ? & _). eauto.
    - destruct (Hreq _ _ Hc H) as (es & ? & _). eauto.
    - destruct (Hreq _ _ Hr H) as (es & ? & _). eauto. }
  exists es. split; [exact Hes|]. split.
  - intros k Hk Hm.
    repeat (apply elem_of_cons in Hk as [->|Hk]);
      [destruct (Hreq _ _ Hd Hm) as (es' & He & Hin)
      |destruct (Hreq _ _ Hc Hm) as (es' & He & Hin)
      |destruct (Hreq _ _ Hr Hm) as (es' & He & Hin)
      |by apply elem_of_nil in Hk];
      rewrite Hes in He; by injection He as ->.
  - intros Hg Hg'. destruct (Hglob Hg Hg') as (es' & He & Hin).
    rewrite Hes in He. by injection He as ->.
Qed.

(** ** The alias of [global_] *)

Lemma validate_field_alias_by_name (m : gmap string json) name alias d f v :
  m !! alias = None -> m !! name = Some v ->
  validate_field true m (FieldInfo name (Some alias) d, f) =
  vmap (pair name) (at_loc (LKey name) (f v)).
Proof.
  intros Ha Hn. unfold validate_field, lookup_keys. cbn [falias fname].
  simpl. by rewrite Ha, Hn.
Qed.

Lemma vmap_at_loc_valid {A B} (g : A -> B) i j (r : validation A) b :
  vmap g (at_loc i r) = Valid b -> vmap g (at_loc j r) = Valid b.
Proof. by destruct r. Qed.

(** The fields of the response other than [global_] are read under their
    own name. *)
Lemma response_field_cases f :
  f ∈ EvaluateResponse_fields ->
  f = aliased "global_" "global" GlobalAssessment \/
  exists name d t, f = (FieldInfo name None d, t) /\
                   name <> "global" /\ name <> "global_".
Proof.
  intros Hin. unfold EvaluateResponse_fields in Hin.
  repeat (apply elem_of_cons in Hin as [->|Hin]);
    try (by left); try (by apply elem_of_nil in Hin);
    right; eexists _, _, _; (split; [reflexivity|]); by split.
Qed.

(** X2. Under [populate_by_name] the global assessment may be given as
    [global] or as [global_]: renaming the key from the one to the other
    leaves a successful parse unchanged. When [global] is present it is the
    one read: a [global_] key beside it, whatever it holds, changes
    nothing. *)
Theorem global_accepted_by_name (m : gmap string json) (g : json) (r : pyobj) :
  m !! "global" = Some g -> m !! "global_" = None ->
  (validate EvaluateResponse (JObj m) = Valid r <->
   validate EvaluateResponse (JObj (<["global_" := g]> (delete "global" m)))
     = Valid r) /\
  (forall other,
     validate EvaluateResponse (JObj m) = Valid r ->
     validate EvaluateResponse (JObj (<["global_" := other]> m)) = Valid r).
Proof.
  intros Hg Hg'. split; [split|].
  - apply validate_model_valid_ext. intros f kv Hin.
    destruct (response_field_cases f Hin)
      as [-> | (name & d & t & -> & Hn & Hn')].
    + cbv [aliased]. cbn [fst snd].
      rewrite (validate_field_alias _ m _ _ _ _ g Hg).
      rewrite (validate_field_alias_by_name _ "global_" "global" _ _ g).
      * apply vmap_at_loc_valid.
      * rewrite lookup_insert_ne by done. apply lookup_delete_eq.
      * apply lookup_insert_eq.
    + cbn [fst snd]. apply validate_field_same_lookup.
      rewrite lookup_insert_ne by done. by rewrite lookup_delete_ne.
  - apply validate_model_valid_ext. intros f kv Hin.
    destruct (response_field_cases f Hin)
      as [-> | (name & d & t & -> & Hn & Hn')].
    + cbv [aliased]. cbn [fst snd].
      rewrite (validate_field_alias _ m _ _ _ _ g Hg).
      rewrite (validate_field_alias_by_name _ "global_" "global" _ _ g).
      * apply vmap_at_loc_valid.
      * rewrite lookup_insert_ne by done. apply lookup_delete_eq.
      * apply lookup_insert_eq.
    + cbn [fst snd]. apply validate_field_same_lookup.
      rewrite lookup_insert_ne by done. by rewrite lookup_delete_ne.
  - intros other. apply validate_model_valid_ext. intros f kv Hin.
    destruct (response_field_cases f Hin)
      as [-> | (name & d & t & -> & Hn & Hn')].
    + cbv [aliased]. cbn [fst snd].
      rewrite (validate_field_alias _ m _ _ _ _ g Hg).
      rewrite (validate_field_alias _ (<["global_" := other]> m) _ _ _ _ g);
        [done|]. by rewrite lookup_insert_ne.
    + cbn [fst snd]. apply validate_field_same_lookup.
      by rewrite lookup_insert_ne.
Qed.

(** ** [null] and absence *)

Lemma validate_field_agree pbn (m m' : gmap string json) fi f kv :
  (forall k, k ∈ lookup_keys pbn fi -> m' !! k = m !! k) ->
  validate_field pbn m (fi, f) = Valid kv ->
  validate_field pbn m' (fi, f) = Valid kv.
Proof.
  intros Hk. unfold validate_field. rewrite (find_key_agree _ m m' Hk).
  destruct (find_key (lookup_keys pbn fi) m) as [[k v]|]; [done|].
  by destruct (fdefault fi).
Qed.

Lemma optional_aggregate_field k :
  k ∈ optional_aggregates ->
  exists t, optional k t ∈ EvaluateResponse_fields.
Proof.
  intros Hk. unfold optional_aggregates in Hk.
  repeat (apply elem_of_cons in Hk as [->|Hk]);
    try (by apply elem_of_nil in Hk);
    eexists; unfold EvaluateResponse_fields; repeat constructor.
Qed.

Lemma response_field_by_key f k :
  f ∈ EvaluateResponse_fields -> k ∈ optional_aggregates ->
  (exists t, f = optional k t) \/
  (exists name d t, f = (FieldInfo name None d, t) /\ name <> k) \/
  f = aliased "global_" "global" GlobalAssessment.
Proof.
  intros Hin Hk. unfold EvaluateResponse_fields in Hin.
  unfold optional_aggregates in Hk.
  repeat (apply elem_of_cons in Hin as [->|Hin]);
    try (by apply elem_of_nil in Hin);
    try (by right; right);
    repeat (apply elem_of_cons in Hk as [->|Hk]);
    try (by apply elem_of_nil in Hk);
    first [ left; eexists; reflexivity
          | right; left; eexists _, _, _; split; [reflexivity|done] ].
Qed.

Lemma optional_aggregate_not_global k :
  k ∈ optional_aggregates -> k <> "global" /\ k <> "global_".
Proof.
  intros Hk. unfold optional_aggregates in Hk.
  repeat (apply elem_of_cons in Hk as [->|Hk]);
    try (by apply elem_of_nil in Hk); by split.
Qed.

(** X3. For each of the ten optional aggregate fields, an explicit [null]
    and an absent key are interchangeable: adding [null] under an absent
    key, or dropping a key that holds [null], leaves a successful parse
    unchanged. *)
Theorem null_is_absence (m : gmap string json) (k : string) (r : pyobj) :
  k ∈ optional_aggregates ->
  (m !! k = None ->
   validate EvaluateResponse (JObj m) = Valid r ->
   validate EvaluateResponse (JObj (<[k := JNull]> m)) = Valid r) /\
  (m !! k = Some JNull ->
   validate EvaluateResponse (JObj m) = Valid r ->
   validate EvaluateResponse (JObj (delete k m)) = Valid r).
Proof.
  intros Hk. destruct (optional_aggregate_not_global k Hk) as [Hg Hg'].
  split; intros Hm; apply validate_model_valid_ext; intros f kv Hin;
    destruct (response_field_by_key f k Hin Hk)
      as [[t ->] | [(name & d & t & -> & Hn) | ->]].
  - cbv [optional]. cbn [fst snd].
    rewrite (validate_field_default _ m k _ _ Hm).
    rewrite (validate_field_present _ _ k _ _ JNull); [done|].
    apply lookup_insert_eq.
  - cbn [fst snd]. apply validate_field_same_lookup.
    by rewrite lookup_insert_ne.
  - cbv [aliased]. cbn [fst snd]. apply validate_field_agree.
    intros k' Hk'. cbn in Hk'.
    repeat (apply elem_of_cons in Hk' as [->|Hk']);
      try (by apply elem_of_nil in Hk'); by rewrite lookup_insert_ne.
  - cbv [optional]. cbn [fst snd].
    rewrite (validate_field_present _ m k _ _ JNull Hm).
    rewrite (validate_field_default _ (delete k m) k); [done|].
    apply lookup_delete_eq.
  - cbn [fst snd]. apply validate_field_same_lookup.
    by rewrite lookup_delete_ne.
  - cbv [aliased]. cbn [fst snd]. apply validate_field_agree.
    intros k' Hk'. cbn in Hk'.
    repeat (apply elem_of_cons in Hk' as [->|Hk']);
      try (by apply elem_of_nil in Hk'); by rewrite lookup_delete_ne.
Qed.

(** X4. The four required fields of the response are not nullable: a
    [null] under [domains], [global], [confidence] or [crisis_resources]
    makes the response invalid. *)
Theorem null_required_refused (m : gmap string json) :
  (m !! "domains" = Some JNull \/ m !! "global" = Some JNull \/
   m !! "confidence" = Some JNull \/ m !! "crisis_resources" = Some JNull) ->
  is_valid (validate EvaluateResponse (JObj m)) = false.
Proof.
  intros [H | [H | [H | H]]].
  - apply (response_field_rejected m "domains" (TList DomainAssessment) JNull);
      [unfold EvaluateResponse_fields; repeat constructor | exact H | done].
  - apply (field_invalid_is_invalid _ _ _ m
             (FieldInfo "global_" (Some "global") None) GlobalAssessment
             "global" JNull);
      [unfold EvaluateResponse_fields; repeat constructor | | done].
    simpl. by rewrite H.
  - apply (response_field_rejected m "confidence"
             (TFloat (Some 0%Q) (Some 1%Q)) JNull);
      [unfold EvaluateResponse_fields; repeat constructor | exact H | done].
  - apply (response_field_rejected m "crisis_resources"
             (TList CrisisResource) JNull);
      [unfold EvaluateResponse_fields; repeat constructor | exact H | done].
Qed.

(** ** Domain assessments *)

Lemma domain_union_of_variant (o : gmap string json) cls choice fields v :
  (cls, choice, fields) ∈ domain_variants ->
  o !! "domain" = Some (JStr choice) ->
  validate (TModel cls false fields) (JObj o) = Valid v ->
  validate DomainAssessment (JObj o) = Valid v.
Proof.
  intros Hin Hd Hv. unfold domain_variants in Hin.
  unfold DomainAssessment. rewrite validate_union_eq.
  repeat (apply elem_of_cons in Hin as [Hin|Hin]);
    try (by apply elem_of_nil in Hin); injection Hin as -> -> ->.
  - by apply validate_union_take.
  - apply (validate_union_first
             [ ("SelfDomainAssessment", validate SelfDomainAssessment) ]
             "OthersDomainAssessment" _
             [ ("DependentAtRiskAssessment",
                validate DependentAtRiskAssessment);
               ("VictimisationAssessment",
                validate VictimisationAssessment) ]); [|exact Hv].
    repeat constructor; cbn [snd].
    apply (variant_rejects_other _ _ o "self" "others");
      [apply elem_of_app; right; left | exact Hd | discriminate].
  - apply (validate_union_first
             [ ("SelfDomainAssessment", validate SelfDomainAssessment);
               ("OthersDomainAssessment", validate OthersDomainAssessment) ]
             "DependentAtRiskAssessment" _
             [ ("VictimisationAssessment",
                validate VictimisationAssessment) ]); [|exact Hv].
    repeat constructor; cbn [snd].
    + apply (variant_rejects_other _ _ o "self" "dependent_at_risk");
        [apply elem_of_app; right; left | exact Hd | discriminate].
    + apply (variant_rejects_other _ _ o "others" "dependent_at_risk");
        [apply elem_of_app; right; left | exact Hd | discriminate].
  - by apply domain_union_victimisation.
Qed.

Lemma domain_valid_variant raw d :
  validate DomainAssessment raw = Valid d ->
  exists cls choice fields o,
    (cls, choice, fields) ∈ domain_variants /\
    raw = JObj o /\ o !! "domain" = Some (JStr choice) /\
    validate (TModel cls false fields) (JObj o) = Valid d.
Proof.
  rewrite DomainAssessment_variants, validate_union_eq, map_map.
  intros Hv. apply validate_union_valid in Hv as (tag & f & Hin & Hf).
  apply list_elem_of_fmap in Hin as ([[cls choice] fields] & [= -> ->] & Hin).
  cbn [fst snd] in *.
  pose proof domain_variants_tagged as Htag. rewrite Forall_forall in Htag.
  destruct (Htag _ Hin) as [Hfield _]. cbn [fst snd] in Hfield.
  destruct (variant_accepts_own_domain _ _ _ _ _ Hfield Hf) as (o & -> & Ho).
  by exists cls, choice, fields, o.
Qed.

(** X5. Whatever parses as a [DomainAssessment] is an object whose
    [domain] is one of the four discriminants, and the result is an
    instance of the class that declares this discriminant, with that
    discriminant as its [domain] attribute. *)
Theorem variant_follows_discriminant (raw : json) (d : pyobj) :
  validate DomainAssessment raw = Valid d ->
  exists cls choice fields o kvs,
    (cls, choice, fields) ∈ domain_variants /\
    raw = JObj o /\ o !! "domain" = Some (JStr choice) /\
    d = PModel cls kvs /\ getattr d "domain" = Some (PStr choice).
Proof.
  intros Hv.
  destruct (domain_valid_variant raw d Hv)
    as (cls & choice & fields & o & Hin & -> & Ho & Hd).
  pose proof domain_variants_defaults as Hdef.
  pose proof domain_variants_base as Hb.
  pose proof domain_variants_tagged as Htag.
  rewrite Forall_forall in Hdef, Hb, Htag.
  destruct (Hb _ Hin) as [Hnd _]. destruct (Htag _ Hin) as [Hfield _].
  cbn [fst snd] in *.
  pose proof (validate_sound _ (Hdef _ Hin) _ _ Hd) as Hc.
  cbn [fst snd] in Hc.
  destruct (conforms_getattr cls false fields d
              (FieldInfo "domain" None None) (TLiteral [choice]) Hc Hnd Hfield)
    as (x & Hx & (s & -> & Hs)).
  apply list_elem_of_singleton in Hs as ->.
  destruct Hc as (kvs & -> & _).
  exists cls, choice, fields, o, kvs. by repeat split.
Qed.

(** X7. Keys that no variant declares, added to a raw domain assessment
    that parses, are ignored: it still parses, to the same value. *)
Theorem unknown_keys_ignored_in_domain (o extra : gmap string json)
    (d : pyobj) :
  (forall k, k ∈ ["severity"; "imminence"; "confidence"; "risk_features";
                  "risk_types"; "reasoning"; "domain"; "self_subtype";
                  "dependent_subtype"; "victimisation_subtype"] ->
             extra !! k = None) ->
  validate DomainAssessment (JObj o) = Valid d ->
  validate DomainAssessment (JObj (o ∪ extra)) = Valid d.
Proof.
  intros Hextra Hv.
  destruct (domain_valid_variant _ d Hv)
    as (cls & choice & fields & o' & Hin & [= <-] & Ho & Hd).
  apply (domain_union_of_variant _ cls choice fields d Hin).
  - rewrite lookup_union_l; [exact Ho|]. apply Hextra. repeat constructor.
  - apply (validate_model_agree _ _ _ o); [|exact Hd].
    intros k Hk. apply lookup_union_l, Hextra.
    clear -Hin Hk. unfold domain_variants in Hin.
    repeat (apply elem_of_cons in Hin as [Hin|Hin]);
      try (by apply elem_of_nil in Hin); injection Hin as -> -> ->;
      cbv in Hk;
      repeat (apply elem_of_cons in Hk as [->|Hk]);
      try (by apply elem_of_nil in Hk); repeat constructor.
Qed.

(** *** Subtypes *)

Lemma variant_with_subtype cls choice fields name choices
    (o : gmap string json) base s :
  fields = BaseDomainAssessment_fields ++
           [ required "domain" (TLiteral [choice]);
             required name (TLiteral choices) ] ->
  validate BaseDomainAssessment (JObj o)
    = Valid (PModel "BaseDomainAssessment" base) ->
  o !! "domain" = Some (JStr choice) ->
  o !! name = Some (JStr s) -> s ∈ choices ->
  validate (TModel cls false fields) (JObj o) =
  Valid (PModel cls (base ++ [("domain", PStr choice); (name, PStr s)])).
Proof.
  intros -> Hb Hd Hs Hin. apply base_fields_valid in Hb.
  rewrite validate_model_eq, map_app, validate_fields_app, Hb.
  cbv [required]. cbn [map fst snd validate_fields].
  rewrite (validate_field_present _ _ "domain" _ _ _ Hd).
  rewrite (validate_field_present _ _ name _ _ _ Hs).
  simpl. rewrite decide_True by left. by rewrite decide_True.
Qed.

Lemma domain_all_invalid (o : gmap string json) :
  is_valid (validate SelfDomainAssessment (JObj o)) = false ->
  is_valid (validate OthersDomainAssessment (JObj o)) = false ->
  is_valid (validate DependentAtRiskAssessment (JObj o)) = false ->
  is_valid (validate VictimisationAssessment (JObj o)) = false ->
  is_valid (validate DomainAssessment (JObj o)) = false.
Proof.
  intros H1 H2 H3 H4. unfold DomainAssessment. rewrite validate_union_eq.
  destruct (validate_union_invalid
    (map (fun m => (type_tag m, validate m))
       [SelfDomainAssessment; OthersDomainAssessment;
        DependentAtRiskAssessment; VictimisationAssessment]) (JObj o))
    as (es & -> & _); [|done].
  by repeat constructor.
Qed.

Lemma subtype_field_rejected cls fields (o : gmap string json) name choices x :
  required name (TLiteral choices) ∈ fields ->
  o !! name = Some x -> unlisted choices x ->
  is_valid (validate (TModel cls false fields) (JObj o)) = false.
Proof.
  intros Hin Hx Hbad.
  apply (field_invalid_is_invalid cls false fields o
           (FieldInfo name None None) (TLiteral choices) name x);
    [exact Hin| |by apply unlisted_invalid].
  unfold lookup_keys. cbn [falias fname]. rewrite find_key_single.
  by rewrite Hx.
Qed.

(** X8. A [self] assessment with valid base fields parses exactly when
    its [self_subtype] is one of the three values of [SelfSubtype], and then
    holds it; with any other value it is refused. The same for
    [dependent_at_risk] and [DependentSubtype]. *)
Theorem subtype_within_enumeration (o : gmap string json)
    (base : list (string * pyobj)) (x : json) :
  validate BaseDomainAssessment (JObj o)
    = Valid (PModel "BaseDomainAssessment" base) ->
  (o !! "domain" = Some (JStr "self") -> o !! "self_subtype" = Some x ->
   (forall s, x = JStr s -> s ∈ SelfSubtype ->
      validate DomainAssessment (JObj o) =
      Valid (PModel "SelfDomainAssessment"
               (base ++ [("domain", PStr "self");
                         ("self_subtype", PStr s)]))) /\
   (unlisted SelfSubtype x ->
      is_valid (validate DomainAssessment (JObj o)) = false)) /\
  (o !! "domain" = Some (JStr "dependent_at_risk") ->
   o !! "dependent_subtype" = Some x ->
   (forall s, x = JStr s -> s ∈ DependentSubtype ->
      validate DomainAssessment (JObj o) =
      Valid (PModel "DependentAtRiskAssessment"
               (base ++ [("domain", PStr "dependent_at_risk");
                         ("dependent_subtype", PStr s)]))) /\
   (unlisted DependentSubtype x ->
      is_valid (validate DomainAssessment (JObj o)) = false)).
Proof.
  intros Hb. split; intros Hd Hx; split.
  - intros s -> Hs.
    apply (domain_union_of_variant o "SelfDomainAssessment" "self"
             SelfDomainAssessment_fields); [left | exact Hd |].
    by apply (variant_with_subtype _ "self" _ "self_subtype" SelfSubtype).
  - intros Hbad. apply domain_all_invalid.
    + apply (subtype_field_rejected _ _ o "self_subtype" SelfSubtype x);
        [apply elem_of_app; right; right; left | exact Hx | exact Hbad].
    + apply (variant_rejects_other _ _ o "others" "self");
        [apply elem_of_app; right; left | exact Hd | discriminate].
    + apply (variant_rejects_other _ _ o "dependent_at_risk" "self");
        [apply elem_of_app; right; left | exact Hd | discriminate].
    + apply (variant_rejects_other _ _ o "victimisation" "self");
        [apply elem_of_app; right; left | exact Hd | discriminate].
  - intros s -> Hs.
    apply (domain_union_of_variant o "DependentAtRiskAssessment"
             "dependent_at_risk" DependentAtRiskAssessment_fields);
      [right; right; left | exact Hd |].
    by apply (variant_with_subtype _ "dependent_at_risk" _
                "dependent_subtype" DependentSubtype).
  - intros Hbad. apply domain_all_invalid.
    + apply (variant_rejects_other _ _ o "self" "dependent_at_risk");
        [apply elem_of_app; right; left | exact Hd | discriminate].
    + apply (variant_rejects_other _ _ o "others" "dependent_at_risk");
        [apply elem_of_app; right; left | exact Hd | discriminate].
    + apply (subtype_field_rejected _ _ o "dependent_subtype"
               DependentSubtype x);
        [apply elem_of_app; right; right; left | exact Hx | exact Hbad].
    + apply (variant_rejects_other _ _ o "victimisation" "dependent_at_risk");
        [apply elem_of_app; right; left | exact Hd | discriminate].
Qed.

(** ** Round trips of the other models *)

Lemma dump_fields_lookup_None ex dump (kvs : list (string * pyobj)) k :
  k ∉ kvs.*1 -> dump_fields ex dump kvs !! k = None.
Proof.
  induction kvs as [|[k' x'] kvs IH]; simpl; intros Hk; [done|].
  apply not_elem_of_cons in Hk as [Hne Hk].
  destruct (ex && is_none x'); [by apply IH|].
  rewrite lookup_insert_ne by done. by apply IH.
Qed.

Lemma model_roundtrip ex cls pbn fields kvs :
  NoDup (map (fun f => fname f.1) fields) ->
  Forall (fun f => match falias f.1 with
                   | None => True
                   | Some a => pbn = true /\
                               a ∉ map (fun f => fname f.1) fields
                   end) fields ->
  Forall2 (fun f kv => kv.1 = fname f.1 /\
                       validate f.2 (model_dump ex kv.2) = Valid kv.2 /\
                       (kv.2 = PNone -> fdefault f.1 = Some PNone))
          fields kvs ->
  validate (TModel cls pbn fields) (model_dump ex (PModel cls kvs))
  = Valid (PModel cls kvs).
Proof.
  intros Hnd Halias Hkvs.
  assert (kvs.*1 = map (fun f => fname f.1) fields) as Hfst.
  { clear -Hkvs. induction Hkvs as [|f kv fields kvs (Hk & _) _ IH]; [done|].
    rewrite fmap_cons. simpl map. by f_equal. }
  simpl. set (m := dump_fields ex (model_dump ex) kvs).
  assert (forall k x, (k, x) ∈ kvs ->
            m !! k = if ex && is_none x then None
                     else Some (model_dump ex x)) as Hm.
  { rewrite <- Hfst in Hnd. intros. by apply dump_fields_lookup. }
  assert (forall a, a ∉ map (fun f => fname f.1) fields -> m !! a = None)
    as Hm'.
  { rewrite <- Hfst. intros a Ha. by apply dump_fields_lookup_None. }
  clearbody m. clear Hfst Hnd.
  enough (validate_fields pbn m (map (fun f => (f.1, validate f.2)) fields)
          = Valid kvs) as -> by done.
  assert (Forall (fun f => match falias f.1 with
                           | None => True
                           | Some a => pbn = true /\ m !! a = None
                           end) fields) as Ha.
  { eapply Forall_impl; [exact Halias|]. intros f Hf. cbv beta in Hf |- *.
    destruct (falias f.1) as [a|]; [|done].
    destruct Hf as [Hp Hf]. split; [done|]. by apply Hm'. }
  clear Halias Hm'.
  induction Hkvs as [|[fi ft] [k x] fields kvs (Hk & Hx & Hn) _ IH]; [done|].
  apply Forall_cons in Ha as [Ha1 Ha]. simpl in Hk, Hx, Hn, Ha1. subst k.
  simpl. rewrite IH; [| intros k' x' Hin; apply Hm; by right | exact Ha].
  assert (find_key (lookup_keys pbn fi) m =
          if ex && is_none x then None
          else Some (fname fi, model_dump ex x)) as ->.
  { unfold lookup_keys. destruct (falias fi) as [a|].
    - destruct Ha1 as [-> Ha1]. simpl. rewrite Ha1.
      rewrite (Hm (fname fi) x) by left. by destruct (ex && is_none x).
    - simpl. rewrite (Hm (fname fi) x) by left.
      by destruct (ex && is_none x). }
  destruct (ex && is_none x) eqn:He.
  - apply andb_prop in He as [_ He]. destruct x; try done.
    by rewrite Hn.
  - by rewrite Hx.
Qed.

Lemma roundtrip_of_lossless t :
  lossless t = true -> defaults_conform t ->
  forall raw v ex, validate t raw = Valid v ->
                   validate t (model_dump ex v) = Valid v.
Proof.
  intros Hl Hd raw v ex Hv. apply dump_roundtrip; [exact Hl|].
  by eapply validate_sound.
Qed.

Lemma domain_roundtrip ex d :
  conforms DomainAssessment d ->
  validate DomainAssessment (model_dump ex d) = Valid d.
Proof.
  rewrite DomainAssessment_variants. intros Hd.
  apply conforms_union in Hd as (m & Hin & Hm).
  apply list_elem_of_fmap in Hin as ([[cls choice] fields] & -> & Hin).
  cbn [fst snd] in Hm.
  assert (lossless (TModel cls false fields) = true) as Hl.
  { clear -Hin. unfold domain_variants in Hin.
    repeat (apply elem_of_cons in Hin as [Hin|Hin]);
      try (by apply elem_of_nil in Hin); injection Hin as -> -> ->;
      vm_compute; reflexivity. }
  pose proof (dump_roundtrip ex _ Hl d Hm) as Hv.
  pose proof domain_variants_tagged as Htag. rewrite Forall_forall in Htag.
  destruct (Htag _ Hin) as [Hfield _]. cbn [fst snd] in Hfield.
  destruct (variant_accepts_own_domain _ _ _ _ _ Hfield Hv) as (o & Ho & Hdom).
  rewrite <- DomainAssessment_variants. rewrite Ho in Hv |- *.
  by apply (domain_union_of_variant o cls choice fields).
Qed.

Lemma lossless_field_roundtrip ex (f : field_info * ftype) :
  lossless f.2 = true -> none_default f = true ->
  forall x, conforms f.2 x ->
    validate f.2 (model_dump ex x) = Valid x /\
    (x = PNone -> fdefault f.1 = Some PNone).
Proof.
  intros Hl Hn x Hx. split; [by apply dump_roundtrip|].
  intros ->. unfold none_default in Hn.
  rewrite (conforms_none_nullable _ Hl Hx) in Hn.
  by destruct (fdefault f.1) as [[]|].
Qed.

Lemma response_fields_roundtrip ex :
  Forall (fun f => forall x, conforms f.2 x ->
            validate f.2 (model_dump ex x) = Valid x /\
            (x = PNone -> fdefault f.1 = Some PNone))
         EvaluateResponse_fields.
Proof.
  unfold EvaluateResponse_fields. apply Forall_cons. split.
  - cbv [required]. cbn [fst snd]. intros x (items & -> & Hitems).
    split; [|done]. cbn [model_dump]. rewrite validate_list_eq.
    rewrite (validate_items_roundtrip (validate DomainAssessment)
               (model_dump ex) (conforms DomainAssessment)); [done| |done].
    intros v Hv. by apply domain_roundtrip.
  - repeat (apply Forall_cons_2;
              [apply lossless_field_roundtrip; vm_compute; reflexivity|]).
    apply Forall_nil_2.
Qed.

Lemma response_roundtrip ex r :
  conforms EvaluateResponse r ->
  validate EvaluateResponse (model_dump ex r) = Valid r.
Proof.
  intros Hr. apply conforms_model_fields in Hr as (kvs & -> & Hkvs).
  apply model_roundtrip.
  - exact EvaluateResponse_names.
  - unfold EvaluateResponse_fields.
    repeat (apply Forall_cons_2; [|]); try apply Forall_nil_2;
      cbv [required optional aliased]; cbn [fst snd falias]; try exact I.
    split; [done|]. apply (bool_decide_unpack _). vm_compute. exact I.
  - pose proof (response_fields_roundtrip ex) as Hf.
    induction Hkvs as [|f kv fields kvs (Hk & Hx) _ IH]; [constructor|].
    apply Forall_cons in Hf as [Hf1 Hf]. constructor; [|by apply IH].
    destruct (Hf1 _ Hx) as [Hv Hn]. by repeat split.
Qed.

Ltac model_defaults_tac :=
  first [ exact EvaluateRequest_defaults
        | defaults_conform_tac; try (exists "v1"; split; [done|left]) ].

Lemma plain_models_lossless :
  Forall (fun t => lossless t = true /\ defaults_conform t) plain_models.
Proof.
  unfold plain_models.
  repeat (apply Forall_cons; split; [split|]); try apply Forall_nil;
    first [ vm_compute; reflexivity | model_defaults_tac ].
Qed.

(** X9. Every model of [types.py] round-trips: a value that one of the
    model classes (or the [DomainAssessment] union, or [EvaluateResponse]
    with its alias) has validated, dumped with [model_dump] with or without
    [exclude_none], validates again to the same value. *)
Theorem every_model_roundtrips (t : ftype) (raw : json) (v : pyobj)
    (exclude_none : bool) :
  t ∈ plain_models ++ [DomainAssessment; EvaluateResponse] ->
  validate t raw = Valid v ->
  validate t (model_dump exclude_none v) = Valid v.
Proof.
  intros Hin Hv. apply elem_of_app in Hin as [Hin|Hin].
  - pose proof plain_models_lossless as Hp. rewrite Forall_forall in Hp.
    destruct (Hp _ Hin) as [Hl Hd]. by eapply roundtrip_of_lossless.
  - repeat (apply elem_of_cons in Hin as [->|Hin]);
      try (by apply elem_of_nil in Hin).
    + apply domain_roundtrip.
      by apply (validate_sound _ DomainAssessment_defaults) in Hv.
    + apply response_roundtrip.
      by apply (validate_sound _ EvaluateResponse_defaults) in Hv.
Qed.

(** ** Where an error is reported *)

Lemma field_located cls pbn fields (o : gmap string json) name d t v es e :
  (FieldInfo name None d, t) ∈ fields ->
  o !! name = Some v -> validate t v = Invalid es -> e ∈ es ->
  exists es', validate (TModel cls pbn fields) (JObj o) = Invalid es' /\
              under (LKey name) e ∈ es'.
Proof.
  intros Hin Ho Hv He.
  destruct (validate_model_invalid cls pbn fields o
              (FieldInfo name None d) t name v es Hin) as (es' & Hes & Hsub);
    [|exact Hv|].
  - unfold lookup_keys. cbn [falias fname]. rewrite find_key_single.
    by rewrite Ho.
  - exists es'. split; [done|]. apply Hsub. by apply list_elem_of_fmap_2.
Qed.

Lemma item_located t items i x es e :
  items !! i = Some x -> validate t x = Invalid es -> e ∈ es ->
  exists es', validate (TList t) (JArr items) = Invalid es' /\
              under (LIdx i) e ∈ es'.
Proof.
  intros Hi Hv He. rewrite validate_list_eq.
  destruct (validate_items_invalid (validate t) items i x es 0 Hi Hv)
    as (es' & -> & Hsub).
  exists es'. split; [done|]. apply Hsub.
  by apply (list_elem_of_fmap_2 (under (LIdx (0 + i)))).
Qed.

Lemma literal_located choices x :
  unlisted choices x ->
  validate (TLiteral choices) x = Invalid [ErrorDetails [] (LiteralError choices) x].
Proof. intros Hx. by rewrite validate_literal_invalid. Qed.

Lemma optional_literal_located choices x :
  x <> JNull -> unlisted choices x ->
  validate (TOptional (TLiteral choices)) x
  = Invalid [ErrorDetails [] (LiteralError choices) x].
Proof.
  intros Hn Hx. rewrite validate_optional_nonnull by done.
  by apply literal_located.
Qed.

(** ** Crisis resources *)

(** X10. A crisis resource whose [type] is not one of the five resource
    types makes the response invalid, and the error gives the place
    ([crisis_resources], the index, [type]), the values expected, and the
    value found. *)
Theorem bad_resource_located (m : gmap string json) (items : list json)
    (i : nat) (o : gmap string json) (x : json) :
  m !! "crisis_resources" = Some (JArr items) ->
  items !! i = Some (JObj o) ->
  o !! "type" = Some x -> unlisted CrisisResourceType x ->
  exists es,
    validate EvaluateResponse (JObj m) = Invalid es /\
    ErrorDetails [LKey "crisis_resources"; LIdx i; LKey "type"]
                 (LiteralError CrisisResourceType) x ∈ es.
Proof.
  intros Hm Hi Ho Hx.
  destruct (field_located "CrisisResource" false (fields_of CrisisResource)
              o "type" None (TLiteral CrisisResourceType) x _
              (ErrorDetails [] (LiteralError CrisisResourceType) x)
              ltac:(cbv [fields_of CrisisResource]; repeat constructor)
              Ho (literal_located _ _ Hx) ltac:(left)) as (es1 & H1 & I1).
  change (TModel "CrisisResource" false (fields_of CrisisResource))
    with CrisisResource in H1.
  destruct (item_located CrisisResource items i (JObj o) es1 _ Hi H1 I1)
    as (es2 & H2 & I2).
  destruct (field_located "EvaluateResponse" true EvaluateResponse_fields m
              "crisis_resources" None (TList CrisisResource) (JArr items)
              es2 _ ltac:(unfold EvaluateResponse_fields; repeat constructor)
              Hm H2 I2) as (es3 & H3 & I3).
  by exists es3.
Qed.

(** X11. A crisis resource needs only its [type] (one of the five
    resource types) and its [name]: with the fifteen other keys absent it
    parses, and every one of those fields is [None]. *)
Theorem minimal_crisis_resource (o : gmap string json) (t n : string) :
  o !! "type" = Some (JStr t) -> t ∈ CrisisResourceType ->
  o !! "name" = Some (JStr n) ->
  (forall k, k ∈ resource_optionals -> o !! k = None) ->
  validate CrisisResource (JObj o) =
  Valid (PModel "CrisisResource"
           (("type", PStr t) :: ("name", PStr n) ::
            map (fun k => (k, PNone)) resource_optionals)).
Proof.
  intros Ht Hin Hn Hopt.
  unfold CrisisResource. rewrite validate_model_eq.
  cbv [required optional]. cbn [map fst snd validate_fields].
  rewrite (validate_field_present _ _ "type" _ _ _ Ht).
  rewrite (validate_field_present _ _ "name" _ _ _ Hn).
  rewrite !validate_field_default
    by (apply Hopt; unfold resource_optionals; repeat constructor).
  simpl. by rewrite decide_True.
Qed.

(** X12. In a response that parses, [crisis_resources] is a list, and
    each resource in it has a [type] among the five resource types and a
    string [name]. *)
Theorem resources_are_typed (raw : json) (r : pyobj) :
  validate EvaluateResponse raw = Valid r ->
  exists rs, getattr r "crisis_resources" = Some (PList rs) /\
    Forall (fun c => one_of CrisisResourceType (getattr c "type") /\
                     exists s, getattr c "name" = Some (PStr s)) rs.
Proof.
  intros Hv. apply (validate_sound _ EvaluateResponse_defaults) in Hv.
  destruct (conforms_getattr _ _ _ r (FieldInfo "crisis_resources" None None)
              (TList CrisisResource) Hv EvaluateResponse_names)
    as (x & Hx & (rs & -> & Hrs)).
  { unfold EvaluateResponse_fields. repeat constructor. }
  cbn [fname] in Hx. exists rs. split; [done|].
  eapply Forall_impl; [exact Hrs|]. intros c Hc.
  change CrisisResource
    with (TModel "CrisisResource" false (fields_of CrisisResource)) in Hc.
  assert (NoDup (map (fun f : field_info * ftype => fname f.1)
                   (fields_of CrisisResource)))
    as Hnd by (apply (bool_decide_unpack _); vm_compute; exact I).
  destruct (conforms_getattr _ _ _ c (FieldInfo "type" None None)
              (TLiteral CrisisResourceType) Hc Hnd) as (t & Ht & Htc).
  { cbv [fields_of CrisisResource]. repeat constructor. }
  destruct (conforms_getattr _ _ _ c (FieldInfo "name" None None)
              TStr Hc Hnd) as (n & Hn & (s & ->)).
  { cbv [fields_of CrisisResource]. repeat constructor. }
  cbn [fname] in Ht, Hn. rewrite Ht. split; [by apply conforms_literal|].
  by exists s.
Qed.

(** ** Metadata *)

(** X13. The [api_version] of a parsed [ResponseMetadata] is always
    ["v1"], given or defaulted; a raw [api_version] that is anything else
    is refused, with an error naming the field and the value. *)
Theorem api_version_is_v1 (o : gmap string json) :
  (forall v, validate ResponseMetadata (JObj o) = Valid v ->
             getattr v "api_version" = Some (PStr "v1")) /\
  (forall x, o !! "api_version" = Some x -> x <> JStr "v1" ->
     exists es, validate ResponseMetadata (JObj o) = Invalid es /\
                ErrorDetails [LKey "api_version"] (LiteralError ["v1"]) x
                  ∈ es).
Proof.
  split.
  - intros v Hv.
    assert (defaults_conform ResponseMetadata) as Hd by model_defaults_tac.
    apply (validate_sound _ Hd) in Hv.
    change ResponseMetadata
      with (TModel "ResponseMetadata" false (fields_of ResponseMetadata))
      in Hv.
    destruct (conforms_getattr _ _ _ v
                (FieldInfo "api_version" None (Some (PStr "v1")))
                (TLiteral ["v1"]) Hv) as (x & Hx & (s & -> & Hs)).
    + apply (bool_decide_unpack _). vm_compute. exact I.
    + cbv [fields_of ResponseMetadata]. repeat constructor.
    + apply list_elem_of_singleton in Hs as ->. exact Hx.
  - intros x Hx Hne.
    apply (field_located "ResponseMetadata" false (fields_of ResponseMetadata)
             o "api_version" (Some (PStr "v1")) (TLiteral ["v1"]) x
             [ErrorDetails [] (LiteralError ["v1"]) x]
             (ErrorDetails [] (LiteralError ["v1"]) x));
      [cbv [fields_of ResponseMetadata]; repeat constructor | exact Hx | | left].
    apply literal_located. intros s -> Hs.
    by apply list_elem_of_singleton in Hs as ->.
Qed.

(** ** Evaluation of a proposed response *)

(** X14. An entry of [issues] that is not one of the twelve response
    issues makes a [ProposedResponseEvaluation] invalid, and the error
    gives [issues], the index of the entry, and the value found. *)
Theorem unknown_issue_located (o : gmap string json) (items : list json)
    (i : nat) (x : json) :
  o !! "issues" = Some (JArr items) -> items !! i = Some x ->
  unlisted ResponseIssue x ->
  exists es,
    validate ProposedResponseEvaluation (JObj o) = Invalid es /\
    ErrorDetails [LKey "issues"; LIdx i] (LiteralError ResponseIssue) x ∈ es.
Proof.
  intros Ho Hi Hx.
  destruct (item_located (TLiteral ResponseIssue) items i x _
              (ErrorDetails [] (LiteralError ResponseIssue) x)
              Hi (literal_located _ _ Hx) ltac:(left)) as (es1 & H1 & I1).
  apply (field_located "ProposedResponseEvaluation" false
           (fields_of ProposedResponseEvaluation) o "issues" None
           (TList (TLiteral ResponseIssue)) (JArr items) es1
           (ErrorDetails [LIdx i] (LiteralError ResponseIssue) x));
    [cbv [fields_of ProposedResponseEvaluation]; repeat constructor
    | exact Ho | exact H1 | exact I1].
Qed.

(** ** Requests *)

(** X15. A message whose [role] is neither ["user"] nor ["assistant"]
    makes the construction of an [EvaluateRequest] fail, and the error
    gives the place ([messages], the index, [role]) and the value found. *)
Theorem bad_role_located (kwargs : gmap string json) (items : list json)
    (i : nat) (o : gmap string json) (x : json) :
  kwargs !! "messages" = Some (JArr items) ->
  items !! i = Some (JObj o) ->
  o !! "role" = Some x -> unlisted ["user"; "assistant"] x ->
  exists es,
    construct EvaluateRequest kwargs = Invalid es /\
    ErrorDetails [LKey "messages"; LIdx i; LKey "role"]
                 (LiteralError ["user"; "assistant"]) x ∈ es.
Proof.
  intros Hk Hi Ho Hx.
  destruct (field_located "Message" false (fields_of Message) o "role" None
              (TLiteral ["user"; "assistant"]) x _
              (ErrorDetails [] (LiteralError ["user"; "assistant"]) x)
              ltac:(cbv [fields_of Message]; repeat constructor)
              Ho (literal_located _ _ Hx) ltac:(left)) as (es1 & H1 & I1).
  change (TModel "Message" false (fields_of Message)) with Message in H1.
  destruct (item_located Message items i (JObj o) es1 _ Hi H1 I1)
    as (es2 & H2 & I2).
  apply (field_located "EvaluateRequest" false (fields_of EvaluateRequest)
           kwargs "messages" (Some PNone) (TOptional (TList Message))
           (JArr items) es2
           (ErrorDetails [LIdx i; LKey "role"]
              (LiteralError ["user"; "assistant"]) x));
    [cbv [fields_of EvaluateRequest]; repeat constructor
    | exact Hk | exact H2 | exact I2].
Qed.

(** X16. An [EvaluateConfig] refuses a [user_age_band] outside
    [adult], [minor], [unknown] and an [assistant_safety_mode] outside
    [template], [generate] (unless [null]), with an error naming the field
    and the value. *)
Theorem config_enumerations (o : gmap string json) (x : json) :
  x <> JNull ->
  (o !! "user_age_band" = Some x ->
   unlisted ["adult"; "minor"; "unknown"] x ->
   exists es, validate EvaluateConfig (JObj o) = Invalid es /\
     ErrorDetails [LKey "user_age_band"]
       (LiteralError ["adult"; "minor"; "unknown"]) x ∈ es) /\
  (o !! "assistant_safety_mode" = Some x ->
   unlisted ["template"; "generate"] x ->
   exists es, validate EvaluateConfig (JObj o) = Invalid es /\
     ErrorDetails [LKey "assistant_safety_mode"]
       (LiteralError ["template"; "generate"]) x ∈ es).
Proof.
  intros Hn. split; intros Ho Hx.
  - apply (field_located "EvaluateConfig" false (fields_of EvaluateConfig)
             o "user_age_band" (Some PNone)
             (TOptional (TLiteral ["adult"; "minor"; "unknown"])) x
             [ErrorDetails [] (LiteralError ["adult"; "minor"; "unknown"]) x]
             (ErrorDetails [] (LiteralError ["adult"; "minor"; "unknown"]) x));
      [cbv [fields_of EvaluateConfig]; repeat constructor | exact Ho | | left].
    by apply optional_literal_located.
  - apply (field_located "EvaluateConfig" false (fields_of EvaluateConfig)
             o "assistant_safety_mode" (Some PNone)
             (TOptional (TLiteral ["template"; "generate"])) x
             [ErrorDetails [] (LiteralError ["template"; "generate"]) x]
             (ErrorDetails [] (LiteralError ["template"; "generate"]) x));
      [cbv [fields_of EvaluateConfig]; repeat constructor | exact Ho | | left].
    by apply optional_literal_located.
Qed.

(** ** Every declared attribute is there *)


(** ** Legal flags: the confidence of an indicator is any number *)







(** ** The properties at sample inputs *)

Lemma missing_required_reported_witness :
  (∅ : gmap string json) !! "confidence" = None /\
  exists es,
    validate EvaluateResponse (JObj ∅) = Invalid es /\
    ErrorDetails [LKey "confidence"] Missing (JObj ∅) ∈ es /\
    ErrorDetails [LKey "global"] Missing (JObj ∅) ∈ es.
Proof.
  split; [reflexivity|].
  assert ((∅ : gmap string json) !! "domains" = None) as Hd by reflexivity.
  destruct (missing_required_reported ∅ (or_introl Hd))
    as (es & Hes & Hk & Hg).
  exists es. split; [exact Hes|]. split.
  - apply Hk; [repeat constructor | reflexivity].
  - by apply Hg.
Defined.

Lemma global_accepted_by_name_witness :
  plain_response !! "global" = Some sample_global /\
  plain_response !! "global_" = None /\
  validate EvaluateResponse
    (JObj (<["global_" := sample_global]> (delete "global" plain_response)))
  = Valid plain_parsed.
Proof.
  split; [reflexivity|]. split; [reflexivity|].
  apply (proj1 (global_accepted_by_name plain_response sample_global
                  plain_parsed eq_refl eq_refl)).
  vm_compute. reflexivity.
Defined.

Lemma null_is_absence_witness :
  "metadata" ∈ optional_aggregates /\
  plain_response !! "metadata" = None /\
  validate EvaluateResponse (JObj (<["metadata" := JNull]> plain_response))
  = Valid plain_parsed.
Proof.
  assert ("metadata" ∈ optional_aggregates) as Hk
    by (unfold optional_aggregates; repeat constructor).
  split; [exact Hk|]. split; [reflexivity|].
  apply (proj1 (null_is_absence plain_response "metadata" plain_parsed Hk)
           eq_refl).
  vm_compute. reflexivity.
Defined.

Lemma null_required_refused_witness :
  (<["confidence" := JNull]> plain_response) !! "confidence" = Some JNull /\
  is_valid (validate EvaluateResponse
              (JObj (<["confidence" := JNull]> plain_response))) = false.
Proof.
  split; [reflexivity|].
  apply null_required_refused. right. right. left. reflexivity.
Defined.

Lemma variant_follows_discriminant_witness :
  validate DomainAssessment (JObj victimisation_without_subtype)
    = Valid victimisation_parsed /\
  exists cls choice fields o kvs,
    (cls, choice, fields) ∈ domain_variants /\
    JObj victimisation_without_subtype = JObj o /\
    o !! "domain" = Some (JStr choice) /\
    victimisation_parsed = PModel cls kvs /\
    getattr victimisation_parsed "domain" = Some (PStr choice).
Proof.
  assert (validate DomainAssessment (JObj victimisation_without_subtype)
          = Valid victimisation_parsed) as Hv by (vm_compute; reflexivity).
  split; [exact Hv|].
  exact (variant_follows_discriminant _ _ Hv).
Defined.


Lemma unknown_keys_ignored_in_domain_witness :
  validate DomainAssessment (JObj victimisation_without_subtype)
    = Valid victimisation_parsed /\
  validate DomainAssessment
    (JObj (victimisation_without_subtype ∪ unknown_extras))
    = Valid victimisation_parsed.
Proof.
  assert (validate DomainAssessment (JObj victimisation_without_subtype)
          = Valid victimisation_parsed) as Hv by (vm_compute; reflexivity).
  split; [exact Hv|].
  refine (unknown_keys_ignored_in_domain _ unknown_extras _ _ Hv).
  intros k Hk.
  repeat (apply elem_of_cons in Hk as [->|Hk]; [reflexivity|]).
  by apply elem_of_nil in Hk.
Defined.

Lemma subtype_within_enumeration_witness :
  self_with_subtype !! "self_subtype" = Some (JStr "other") /\
  "other" ∈ SelfSubtype /\
  validate DomainAssessment (JObj self_with_subtype) =
  Valid (PModel "SelfDomainAssessment"
           (sample_base ++ [("domain", PStr "self");
                            ("self_subtype", PStr "other")])).
Proof.
  assert ("other" ∈ SelfSubtype) as Hs
    by (unfold SelfSubtype; repeat constructor).
  split; [reflexivity|]. split; [exact Hs|].
  assert (validate BaseDomainAssessment (JObj self_with_subtype)
          = Valid (PModel "BaseDomainAssessment" sample_base)) as Hb
    by (vm_compute; reflexivity).
  exact (proj1 (proj1 (subtype_within_enumeration self_with_subtype
                         sample_base (JStr "other") Hb)
                  eq_refl eq_refl) "other" eq_refl Hs).
Defined.

Lemma every_model_roundtrips_witness :
  validate EvaluateResponse (JObj plain_response) = Valid plain_parsed /\
  validate EvaluateResponse (model_dump true plain_parsed)
    = Valid plain_parsed.
Proof.
  assert (validate EvaluateResponse (JObj plain_response) = Valid plain_parsed)
    as Hv by (vm_compute; reflexivity).
  split; [exact Hv|].
  refine (every_model_roundtrips EvaluateResponse _ _ true _ Hv).
  apply elem_of_app. right. right. left.
Defined.

Lemma bad_resource_located_witness :
  unlisted CrisisResourceType (JStr "hotline") /\
  exists es,
    validate EvaluateResponse
      (JObj (response_with_resources [JObj lifeline; JObj mistyped_resource]))
    = Invalid es /\
    ErrorDetails [LKey "crisis_resources"; LIdx 1; LKey "type"]
                 (LiteralError CrisisResourceType) (JStr "hotline") ∈ es.
Proof.
  assert (unlisted CrisisResourceType (JStr "hotline")) as Hx.
  { intros s [= <-] Hs. unfold CrisisResourceType in Hs.
    repeat (apply elem_of_cons in Hs as [Hs|Hs]; [discriminate Hs|]).
    by apply elem_of_nil in Hs. }
  split; [exact Hx|].
  exact (bad_resource_located
           (response_with_resources [JObj lifeline; JObj mistyped_resource])
           [JObj lifeline; JObj mistyped_resource] 1 mistyped_resource
           (JStr "hotline") eq_refl eq_refl eq_refl Hx).
Defined.

Lemma minimal_crisis_resource_witness :
  "crisis_line" ∈ CrisisResourceType /\
  is_valid (validate CrisisResource (JObj lifeline)) = true.
Proof.
  assert ("crisis_line" ∈ CrisisResourceType) as Ht
    by (unfold CrisisResourceType; repeat constructor).
  split; [exact Ht|].
  rewrite (minimal_crisis_resource lifeline "crisis_line"
             "988 Suicide & Crisis Lifeline" eq_refl Ht eq_refl).
  - reflexivity.
  - intros k Hk. unfold resource_optionals in Hk.
    repeat (apply elem_of_cons in Hk as [->|Hk]; [reflexivity|]).
    by apply elem_of_nil in Hk.
Defined.

Lemma resources_are_typed_witness :
  is_valid (validate EvaluateResponse
              (JObj (response_with_resources [JObj lifeline]))) = true /\
  forall r,
    validate EvaluateResponse (JObj (response_with_resources [JObj lifeline]))
      = Valid r ->
    exists rs, getattr r "crisis_resources" = Some (PList rs) /\
      Forall (fun c => one_of CrisisResourceType (getattr c "type") /\
                       exists s, getattr c "name" = Some (PStr s)) rs.
Proof.
  split; [vm_compute; reflexivity|].
  intros r Hr. exact (resources_are_typed _ r Hr).
Defined.

Lemma api_version_is_v1_witness :
  is_valid (validate ResponseMetadata (JObj ∅)) = true /\
  forall v, validate ResponseMetadata (JObj ∅) = Valid v ->
            getattr v "api_version" = Some (PStr "v1").
Proof.
  split; [vm_compute; reflexivity|].
  exact (proj1 (api_version_is_v1 ∅)).
Defined.

Lemma unknown_issue_located_witness :
  unlisted ResponseIssue (JStr "too_long") /\
  exists es,
    validate ProposedResponseEvaluation (JObj evaluation_with_unknown_issue)
      = Invalid es /\
    ErrorDetails [LKey "issues"; LIdx 1] (LiteralError ResponseIssue)
                 (JStr "too_long") ∈ es.
Proof.
  assert (unlisted ResponseIssue (JStr "too_long")) as Hx.
  { intros s [= <-] Hs. unfold ResponseIssue in Hs.
    repeat (apply elem_of_cons in Hs as [Hs|Hs]; [discriminate Hs|]).
    by apply elem_of_nil in Hs. }
  split; [exact Hx|].
  exact (unknown_issue_located evaluation_with_unknown_issue
           [JStr "victim_blaming"; JStr "too_long"] 1 (JStr "too_long")
           eq_refl eq_refl Hx).
Defined.

Lemma bad_role_located_witness :
  unlisted ["user"; "assistant"] (JStr "system") /\
  exists es,
    construct EvaluateRequest {[ "messages" := JArr [JObj shouting_message] ]}
      = Invalid es /\
    ErrorDetails [LKey "messages"; LIdx 0; LKey "role"]
                 (LiteralError ["user"; "assistant"]) (JStr "system") ∈ es.
Proof.
  assert (unlisted ["user"; "assistant"] (JStr "system")) as Hx.
  { intros s [= <-] Hs.
    repeat (apply elem_of_cons in Hs as [Hs|Hs]; [discriminate Hs|]).
    by apply elem_of_nil in Hs. }
  split; [exact Hx|].
  exact (bad_role_located {[ "messages" := JArr [JObj shouting_message] ]}
           [JObj shouting_message] 0 shouting_message (JStr "system")
           eq_refl eq_refl eq_refl Hx).
Defined.

Lemma config_enumerations_witness :
  unlisted ["adult"; "minor"; "unknown"] (JStr "senior") /\
  exists es,
    validate EvaluateConfig (JObj {[ "user_age_band" := JStr "senior" ]})
      = Invalid es /\
    ErrorDetails [LKey "user_age_band"]
      (LiteralError ["adult"; "minor"; "unknown"]) (JStr "senior") ∈ es.
Proof.
  assert (unlisted ["adult"; "minor"; "unknown"] (JStr "senior")) as Hx.
  { intros s [= <-] Hs.
    repeat (apply elem_of_cons in Hs as [Hs|Hs]; [discriminate Hs|]).
    by apply elem_of_nil in Hs. }
  split; [exact Hx|].
  assert (JStr "senior" <> JNull) as Hn by discriminate.
  exact (proj1 (config_enumerations {[ "user_age_band" := JStr "senior" ]}
                  (JStr "senior") Hn) eq_refl Hx).
Defined.


